(** * fetch-nodeshim: a shallow embedding of [body.ts], [encoding.ts] and
    [fetch.ts], and the properties of the specification checked against it.

    Layout: the embedding comes first (one module per source file, the
    definitions keeping the names of the source), the theorems follow.

    Conventions of the embedding.
    - A JavaScript string is the sequence of its UTF-16 code units
      ([jsstring]); [TextEncoder.encode] and [Buffer.byteLength] are the
      WHATWG UTF-8 encoder on that sequence and the length of its output.
    - A [Uint8Array]/[Buffer] is a [list byte]; a stream (web
      [ReadableStream], Node [Readable], async generator) is the list of the
      chunks it yields.
    - [null]/[undefined] are [None].
    - Exceptions and promise rejections are explicit results.
    - The host classes ([URL], [Headers], [Blob], [FormData],
      [URLSearchParams]) are modelled by the operations the source calls on
      them; [new URL] is a parameter of the development. *)

From Stdlib Require Import NArith Strings.Ascii Strings.Byte.
From stdpp Require Import gmap strings list pretty.

Open Scope N_scope.

(** ** JavaScript strings *)

Module JsString.

(** UTF-16 code units. *)
Definition jsstring := list N.

#[global] Instance jsstring_eq_dec : EqDecision jsstring := _.
#[global] Instance jsstring_countable : Countable jsstring := _.

(** A string literal of the source (ASCII). *)
Fixpoint lit (s : string) : jsstring :=
  match s with
  | EmptyString => []
  | String a s' => N_of_ascii a :: lit s'
  end.

Arguments lit : simpl never.

Definition is_high_surrogate (c : N) : bool := (0xD800 <=? c) && (c <=? 0xDBFF).
Definition is_low_surrogate (c : N) : bool := (0xDC00 <=? c) && (c <=? 0xDFFF).

Definition byte_of_N (n : N) : byte :=
  match Byte.of_N (n mod 256) with
  | Some b => b
  | None => Byte.x00
  end.

(** UTF-8 bytes of one scalar value. *)
Definition utf8_of_scalar (v : N) : list byte :=
  if v <? 0x80 then [byte_of_N v]
  else if v <? 0x800 then
    [byte_of_N (N.lor 0xC0 (N.shiftr v 6));
     byte_of_N (N.lor 0x80 (N.land v 0x3F))]
  else if v <? 0x10000 then
    [byte_of_N (N.lor 0xE0 (N.shiftr v 12));
     byte_of_N (N.lor 0x80 (N.land (N.shiftr v 6) 0x3F));
     byte_of_N (N.lor 0x80 (N.land v 0x3F))]
  else
    [byte_of_N (N.lor 0xF0 (N.shiftr v 18));
     byte_of_N (N.lor 0x80 (N.land (N.shiftr v 12) 0x3F));
     byte_of_N (N.lor 0x80 (N.land (N.shiftr v 6) 0x3F));
     byte_of_N (N.lor 0x80 (N.land v 0x3F))].

(** U+FFFD, what the encoder emits for an unpaired surrogate. *)
Definition replacement : list byte := utf8_of_scalar 0xFFFD.

(** [new TextEncoder().encode(s)]: a surrogate pair is one scalar value, an
    unpaired surrogate is replaced by U+FFFD. *)
Fixpoint encode (s : jsstring) : list byte :=
  match s with
  | [] => []
  | c :: s' =>
      if is_high_surrogate c then
        match s' with
        | d :: s'' =>
            if is_low_surrogate d
            then utf8_of_scalar (0x10000 + (c - 0xD800) * 0x400 + (d - 0xDC00))
                   ++ encode s''
            else replacement ++ encode s'
        | [] => replacement
        end
      else if is_low_surrogate c then replacement ++ encode s'
      else utf8_of_scalar c ++ encode s'
  end.

(** [Buffer.byteLength(s)] (UTF-8). *)
Definition byteLength (s : jsstring) : nat := length (encode s).

(** [s.toUpperCase()] / [s.toLowerCase()], on the ASCII letters; other code
    units are left as they are. On strings of ASCII code units this is what
    the host computes; the Unicode case mappings of the host on other code
    units are not modelled, and what is stated of a case-mapped string
    beyond equality with these functions is stated of ASCII strings only. *)
Definition upper_unit (c : N) : N := if (97 <=? c) && (c <=? 122) then c - 32 else c.
Definition lower_unit (c : N) : N := if (65 <=? c) && (c <=? 90) then c + 32 else c.
Definition toUpperCase (s : jsstring) : jsstring := map upper_unit s.
Definition toLowerCase (s : jsstring) : jsstring := map lower_unit s.

(** Truthiness of a string: only the empty string is falsy. *)
Definition truthy (s : jsstring) : bool :=
  match s with [] => false | _ => true end.

(** [`${n}`] for a non-negative integer. *)
Definition of_nat (n : nat) : jsstring := lit (pretty n).

(** [Buffer.toString('hex')]. *)
Definition hex_digit (n : N) : N := if n <? 10 then 48 + n else 87 + n.
Definition hex_of_byte (b : byte) : jsstring :=
  let n := Byte.to_N b in [hex_digit (n / 16); hex_digit (n mod 16)].
Definition toHex (bs : list byte) : jsstring := concat (map hex_of_byte bs).

End JsString.
Export JsString.

(** ** body.ts *)

Module Body.

(** A stream, as the chunks it yields. *)
Abbreviation Chunks := (list (list byte)).

(** A [Blob] or [File]: [blob_name] is [File.name] ([None] on a plain
    [Blob]), [blob_stream] what [stream()] yields. *)
Record Blob := {
  blob_size : nat;
  blob_type : jsstring;
  blob_name : option jsstring;
  blob_stream : Chunks;
}.

Inductive FormDataEntryValue :=
| EntryString (value : jsstring)
| EntryFile (value : Blob).

(** A [FormData], as the entries its iterator yields. *)
Abbreviation FormData := (list (jsstring * FormDataEntryValue)).

Record URLSearchParams := { usp_toString : jsstring }.

(** [interface FormDataPolyfill extends Readable]. *)
Record FormDataPolyfill := {
  getBoundary : jsstring;
  hasKnownLength : bool;
  getLengthSync : nat;
  polyfill_stream : Chunks;
}.

(** The inputs of [extractBody], one constructor per branch of its
    classification, in the order of the source; [InitOther] carries the
    truthiness of the value and its default stringification. *)
Inductive BodyInit :=
| InitString (s : jsstring)
| InitURLSearchParams (p : URLSearchParams)
| InitBlob (b : Blob)
| InitUint8Array (bytes : list byte)
| InitArrayBuffer (bytes : list byte)
| InitView (buffer : list byte) (byteOffset byteLength : nat)
| InitReadableStream (chunks : Chunks)
| InitFormData (form : FormData)
| InitMultipartStream (m : FormDataPolyfill)
| InitReadable (chunks : Chunks)
| InitIterable (chunks : Chunks)
| InitOther (isTruthy : bool) (stringified : jsstring).

(** [Readable | ReadableStream | Uint8Array]. *)
Inductive BodyValue :=
| Uint8Array (bytes : list byte)
| ReadableStream (chunks : Chunks)
| Readable (chunks : Chunks).

Record BodyState := {
  contentLength : option nat;
  contentType : option jsstring;
  body : option BodyValue;
}.

Definition CRLF : jsstring := lit (String "013" (String "010" EmptyString)).
Definition CRLF_LENGTH : nat := 2.
Definition BOUNDARY : jsstring := lit "--".

(** The double quote of the header templates. *)
Definition DQUOTE : jsstring := [34].

(** [`formdata-${randomBytes(8).toString('hex')}`]; [random] is the result
    of [randomBytes(8)]. *)
Definition makeFormBoundary (random : list byte) : jsstring :=
  lit "formdata-" ++ toHex random.

Definition getFormHeader (boundary name : jsstring) (field : FormDataEntryValue)
  : jsstring :=
  let header := BOUNDARY ++ boundary ++ CRLF in
  let header := header ++ lit "Content-Disposition: form-data; name=" ++ DQUOTE ++ name ++ DQUOTE in
  let header :=
    match field with
    | EntryFile file =>
        let header :=
          header ++ lit "; filename=" ++ DQUOTE
                 ++ default (lit "blob") (blob_name file) ++ DQUOTE ++ CRLF in
        header ++ lit "Content-Type: "
               ++ (if truthy (blob_type file) then blob_type file
                   else lit "application/octet-stream")
    | EntryString _ => header
    end in
  header ++ CRLF ++ CRLF.

Definition getFormFooter (boundary : jsstring) : jsstring :=
  BOUNDARY ++ boundary ++ BOUNDARY ++ CRLF ++ CRLF.

Definition getFormDataLength (form : FormData) (boundary : jsstring) : nat :=
  fold_left
    (fun length '(name, value) =>
       length +
       (byteLength (getFormHeader boundary name value) +
        match value with
        | EntryFile file => blob_size file
        | EntryString s => byteLength s
        end +
        CRLF_LENGTH))%nat
    form
    (byteLength (getFormFooter boundary)).

(** The chunks the async generator yields. *)
Definition generatorOfFormData (form : FormData) (boundary : jsstring) : Chunks :=
  flat_map
    (fun '(name, value) =>
       match value with
       | EntryFile file =>
           [encode (getFormHeader boundary name value)]
             ++ blob_stream file
             ++ [encode CRLF]
       | EntryString s =>
           [encode (getFormHeader boundary name value ++ s ++ CRLF)]
       end)
    form
  ++ [encode (getFormFooter boundary)].

Definition textPlain : jsstring := lit "text/plain;charset=UTF-8".

(** [random] is what [randomBytes(8)] returns when the [FormData] branch
    draws a boundary. *)
Definition extractBody (object : option BodyInit) (random : list byte) : BodyState :=
  match object with
  | None =>
      {| contentLength := Some 0%nat; contentType := None; body := None |}
  | Some (InitString s) =>
      let bytes := encode s in
      {| contentLength := Some (length bytes);
         contentType := Some textPlain;
         body := Some (Uint8Array bytes) |}
  | Some (InitURLSearchParams p) =>
      let bytes := encode (usp_toString p) in
      {| contentLength := Some (length bytes);
         contentType := Some (lit "application/x-www-form-urlencoded;charset=UTF-8");
         body := Some (Uint8Array bytes) |}
  | Some (InitBlob b) =>
      {| contentLength := Some (blob_size b);
         contentType := if truthy (blob_type b) then Some (blob_type b) else None;
         body := Some (ReadableStream (blob_stream b)) |}
  | Some (InitUint8Array bytes) =>
      {| contentLength := Some (length bytes);
         contentType := None;
         body := Some (Uint8Array bytes) |}
  | Some (InitArrayBuffer buffer) =>
      let bytes := buffer in
      {| contentLength := Some (length bytes);
         contentType := None;
         body := Some (Uint8Array bytes) |}
  | Some (InitView buffer byteOffset byteLength) =>
      let bytes := take byteLength (drop byteOffset buffer) in
      {| contentLength := Some (length bytes);
         contentType := None;
         body := Some (Uint8Array bytes) |}
  | Some (InitReadableStream chunks) =>
      {| contentLength := None; contentType := None;
         body := Some (ReadableStream chunks) |}
  | Some (InitFormData form) =>
      let boundary := makeFormBoundary random in
      {| contentLength := Some (getFormDataLength form boundary);
         contentType := Some (lit "multipart/form-data; boundary=" ++ boundary);
         body := Some (Readable (generatorOfFormData form boundary)) |}
  | Some (InitMultipartStream m) =>
      {| contentLength := if hasKnownLength m then Some (getLengthSync m) else None;
         contentType := Some (lit "multipart/form-data; boundary=" ++ getBoundary m);
         body := Some (Readable (polyfill_stream m)) |}
  | Some (InitReadable chunks) =>
      {| contentLength := None; contentType := None;
         body := Some (Readable chunks) |}
  | Some (InitIterable chunks) =>
      {| contentLength := None; contentType := None;
         body := Some (Readable chunks) |}
  | Some (InitOther _ stringified) =>
      let bytes := encode stringified in
      {| contentLength := Some (length bytes);
         contentType := Some textPlain;
         body := Some (Uint8Array bytes) |}
  end.

(** Truthiness of a body value: the empty string is falsy, objects are
    truthy. *)
Definition truthyInit (object : BodyInit) : bool :=
  match object with
  | InitString s => truthy s
  | InitOther isTruthy _ => isTruthy
  | _ => true
  end.

(** The bytes a body puts on the wire when it is sent. A stream stands for
    the chunks it yields when it is read from its start: that a stream
    object handed in by the caller can be read only once is not modelled,
    and what is stated of the bytes sent after the body was extracted a
    second time is stated of inputs that can be read again. *)
Definition bytesOf (b : option BodyValue) : list byte :=
  match b with
  | None => []
  | Some (Uint8Array bytes) => bytes
  | Some (ReadableStream chunks) | Some (Readable chunks) => concat chunks
  end.

End Body.

(** ** encoding.ts *)

Module Encoding.

Inductive Inflater := Inflate | InflateRaw.

(** The inner zlib transform: its kind and the chunks written to it. *)
Record ZlibTransform := {
  kind : Inflater;
  written : Body.Chunks;
}.

Record InflateStream := { _inflate : option ZlibTransform }.

(** [new InflateStream(opts)]. *)
Definition newInflateStream : InflateStream := {| _inflate := None |}.

Definition write (chunk : list byte) (z : ZlibTransform) : ZlibTransform :=
  {| kind := kind z; written := written z ++ [chunk] |}.

Definition _transform (chunk : list byte) (this : InflateStream) : InflateStream :=
  match _inflate this with
  | None =>
      match chunk with
      | [] => this
      | b :: _ =>
          let created :=
            {| kind := if N.land (Byte.to_N b) 0x0f =? 0x08 then Inflate else InflateRaw;
               written := [] |} in
          {| _inflate := Some (write chunk created) |}
      end
  | Some z => {| _inflate := Some (write chunk z) |}
  end.

(** [_final]: the inner transform, if any, is ended and dropped. *)
Definition _final (this : InflateStream) : InflateStream :=
  match _inflate this with
  | Some _ => {| _inflate := None |}
  | None => this
  end.

(** The chunks of a response body run through [_transform] in order. *)
Definition transformAll (chunks : Body.Chunks) (this : InflateStream) : InflateStream :=
  fold_left (fun s chunk => _transform chunk s) chunks this.

Inductive Decoder :=
| BrotliDecompress
| Gunzip
| InflateDecoder (s : InflateStream)
| PassThrough.

Definition createContentDecoder (encoding : jsstring) : Decoder :=
  if decide (encoding = lit "br") then BrotliDecompress
  else if decide (encoding = lit "gzip") then Gunzip
  else if decide (encoding = lit "x-gzip") then Gunzip
  else if decide (encoding = lit "deflate") then InflateDecoder newInflateStream
  else if decide (encoding = lit "x-deflate") then InflateDecoder newInflateStream
  else PassThrough.

End Encoding.

(** ** The [Headers] container of the host

    A header list with case-insensitive names, kept as a map from the
    lowercased name to the (combined) value. Names and values are taken to
    be valid header names and values, as Node's HTTP parser delivers them
    already trimmed; the host's validation is not part of the model. *)

Module Headers.

Abbreviation t := (gmap jsstring jsstring).

Definition get (name : jsstring) (h : t) : option jsstring :=
  h !! toLowerCase name.

Definition has (name : jsstring) (h : t) : bool :=
  bool_decide (is_Some (get name h)).

Definition set (name value : jsstring) (h : t) : t :=
  <[toLowerCase name := value]> h.

Definition append (name value : jsstring) (h : t) : t :=
  match get name h with
  | Some old => set name (old ++ lit ", " ++ value) h
  | None => set name value h
  end.

Definition remove (name : jsstring) (h : t) : t :=
  base.delete (toLowerCase name) h.

(** [HeadersInit]: a pair list or record (its entries in order), or a
    [Headers] instance. *)
Inductive HeadersInit :=
| InitEntries (entries : list (jsstring * jsstring))
| InitHeaders (h : t).

(** [new Headers(init)]. *)
Definition new (init : option HeadersInit) : t :=
  match init with
  | None => ∅
  | Some (InitHeaders h) => h
  | Some (InitEntries entries) =>
      fold_left (fun h '(name, value) => append name value h) entries ∅
  end.

End Headers.

(** ** fetch.ts *)

Module Fetch.
Import Body Encoding.

Inductive JsError :=
| TypeError (message : jsstring)
| RangeError (message : jsstring)
| Error (message : jsstring).

Inductive result (A : Type) :=
| Ok (value : A)
| Throw (e : JsError).
Arguments Ok {A} value.
Arguments Throw {A} e.

(** The part of a [URL] the source reads: [protocol] and the
    serialization ([href], [toString()]). *)
Record URL := { protocol : jsstring; href : jsstring }.

Record AbortSignal := { aborted : bool; reason : jsstring }.

Inductive RedirectMode := follow | manual | error.

Record Request := {
  request_url : jsstring;
  request_body : option Chunks;
  request_signal : AbortSignal;
  request_redirect : jsstring;
  request_method : jsstring;
  request_headers : Headers.t;
}.

Record RequestInit := {
  init_method : option jsstring;
  init_headers : option Headers.HeadersInit;
  init_body : option BodyInit;
  init_signal : option AbortSignal;
  init_redirect : option jsstring;
}.

Inductive Input :=
| InputString (s : jsstring)
| InputURL (u : URL)
| InputRequest (r : Request).

Definition MAX_REDIRECTS : nat := 20.

Fixpoint headersOfRawHeaders_from (rawHeaders : list jsstring) (headers : Headers.t)
  : Headers.t :=
  match rawHeaders with
  | [] => headers
  | [key] => Headers.set key (lit "undefined") headers
  | key :: value :: rest =>
      headersOfRawHeaders_from rest (Headers.set key value headers)
  end.

Definition headersOfRawHeaders (rawHeaders : list jsstring) : Headers.t :=
  headersOfRawHeaders_from rawHeaders (Headers.new None).

Definition toRedirectOption (redirect : option jsstring) : result RedirectMode :=
  match redirect with
  | None => Ok follow
  | Some r =>
      if decide (r = lit "follow") then Ok follow
      else if decide (r = lit "manual") then Ok manual
      else if decide (r = lit "error") then Ok error
      else Throw (TypeError
             (lit "Request constructor: " ++ r ++
              lit " is not an accepted type. Expected one of follow, manual, error."))
  end.

Definition unsupportedMethod (method : jsstring) : JsError :=
  TypeError (lit "Failed to construct 'Request': '" ++ method ++
             lit "' HTTP method is unsupported.").

Definition methodToHttpOption (method : option jsstring) : result jsstring :=
  match method with
  | Some m =>
      if decide (m = lit "CONNECT") then Throw (unsupportedMethod m)
      else if decide (m = lit "TRACE") then Throw (unsupportedMethod m)
      else if decide (m = lit "TRACK") then Throw (unsupportedMethod m)
      else Ok (if truthy m then toUpperCase m else lit "GET")
  | None => Ok (lit "GET")
  end.

Definition isHttp (u : URL) : bool :=
  bool_decide (protocol u = lit "http:") || bool_decide (protocol u = lit "https:").

(** The options [url.urlToHttpOptions] derives are all read off the URL, so
    the URL stands for them; copying a [URL] object is the identity. *)
Definition urlToHttpOptions (input : URL) : result URL :=
  if isHttp input then Ok input
  else Throw (TypeError (lit "URL scheme " ++ DQUOTE ++ protocol input ++ DQUOTE
                         ++ lit " is not supported.")).

Definition isRedirectCode (code : nat) : bool :=
  bool_decide (code = 301 ∨ code = 302 ∨ code = 303 ∨ code = 307 ∨ code = 308)%nat.

Inductive ResponseBody :=
| Plain (chunks : Chunks)
| Piped (decoder : Decoder) (chunks : Chunks).

Record Response := {
  status : nat;
  statusText : jsstring;
  headers : Headers.t;
  responseBody : option ResponseBody;
  url : jsstring;
  type : jsstring;
  redirected : bool;
}.

Record ResponseInit := {
  ri_status : nat;
  ri_statusText : jsstring;
  ri_headers : Headers.t;
}.

Definition nullBodyStatus (code : nat) : bool :=
  bool_decide (code = 101 ∨ code = 103 ∨ code = 204 ∨ code = 205 ∨ code = 304)%nat.

(** [new Response(body, init)] of the host, which throws on a status outside
    200..599 and on a body given with a null-body status. The response type
    of a fresh [Response] is "default". *)
Definition newResponse (body : option ResponseBody) (init : ResponseInit)
  : result Response :=
  if (ri_status init <? 200)%nat || (599 <? ri_status init)%nat then
    Throw (RangeError (lit "init[status] must be in the range of 200 to 599, inclusive."))
  else if nullBodyStatus (ri_status init) && bool_decide (body ≠ None) then
    Throw (TypeError (lit "Response constructor: Invalid response status code"))
  else
    Ok {| status := ri_status init; statusText := ri_statusText init;
          headers := ri_headers init; responseBody := body;
          url := []; type := lit "default"; redirected := false |}.

Definition createResponse (body : option ResponseBody) (init : ResponseInit)
    (params_url params_type : jsstring) (params_redirected : bool)
  : result Response :=
  match newResponse body init with
  | Throw e => Throw e
  | Ok response =>
      let response :=
        {| status := status response; statusText := statusText response;
           headers := headers response; responseBody := responseBody response;
           url := params_url; type := type response;
           redirected := redirected response |} in
      let response :=
        if bool_decide (params_type ≠ lit "default")
        then {| status := status response; statusText := statusText response;
                headers := headers response; responseBody := responseBody response;
                url := url response; type := params_type;
                redirected := redirected response |}
        else response in
      let response :=
        if params_redirected
        then {| status := status response; statusText := statusText response;
                headers := headers response; responseBody := responseBody response;
                url := url response; type := type response;
                redirected := params_redirected |}
        else response in
      Ok response
  end.

Record RequestOptions := {
  target : URL;
  method : jsstring;
  signal : option AbortSignal;
}.

(** The variables of one [_fetch] call that [_call] closes over. *)
Record State := {
  initBody : option BodyInit;
  redirect : RedirectMode;
  requestUrl : URL;
  requestBody : BodyState;
  redirects : nat;
  requestHeaders : Headers.t;
  requestOptions : RequestOptions;
}.

Record IncomingMessage := {
  statusCode : nat;
  statusMessage : jsstring;
  rawHeaders : list jsstring;
  incomingBody : Chunks;
}.

(** What [_call] hands to the transport: the options of [protocol.request],
    the headers assigned and the bytes written or piped. *)
Record OutgoingMessage := {
  outgoingOptions : RequestOptions;
  outgoingHeaders : Headers.t;
  outgoingBody : list byte;
}.

Inductive Outcome :=
| Resolve (response : Response)
| Reject (reason : JsError)
| Recall (next : State)
| Uncaught (exception : JsError).

Section WithURLParser.

(** [new URL(input, base)]; [None] when it throws [TypeError: Invalid URL]. *)
Variable newURL : jsstring → option URL → option URL.

Definition invalidURL : JsError := TypeError (lit "Invalid URL").

(** Lines 110-133 of [_fetch]: the state the first [_call] starts from.
    The exceptions of the redirect option, the URL, the scheme and the
    method are modelled; [extractBody] and [new Headers] are taken on
    inputs they accept. *)
Definition _fetch (input : Input) (requestInit : option RequestInit)
    (random : list byte) : result State :=
  let initUrl :=
    match input with
    | InputRequest r => newURL (request_url r) None
    | InputString s => newURL s None
    | InputURL u => Some u
    end in
  let initBody :=
    match input with
    | InputRequest r => InitReadableStream <$> request_body r
    | _ =>
        match requestInit with
        | Some {| init_body := Some object |} =>
            if truthyInit object then Some object else None
        | _ => None
        end
    end in
  let signal :=
    match input with
    | InputRequest r => Some (request_signal r)
    | _ => requestInit ≫= init_signal
    end in
  match toRedirectOption
          match input with
          | InputRequest r => Some (request_redirect r)
          | _ => requestInit ≫= init_redirect
          end
  with
  | Throw e => Throw e
  | Ok redirect =>
  match initUrl with
  | None => Throw invalidURL
  | Some requestUrl =>
  let requestBody := extractBody initBody random in
  let requestHeaders :=
    Headers.new
      match requestInit ≫= init_headers with
      | Some h => Some h
      | None =>
          match input with
          | InputRequest r => Some (Headers.InitHeaders (request_headers r))
          | _ => None
          end
      end in
  match urlToHttpOptions requestUrl with
  | Throw e => Throw e
  | Ok options =>
  match methodToHttpOption
          match input with
          | InputRequest r => Some (request_method r)
          | _ => requestInit ≫= init_method
          end
  with
  | Throw e => Throw e
  | Ok method =>
      Ok {| initBody := initBody; redirect := redirect;
            requestUrl := requestUrl; requestBody := requestBody;
            redirects := 0; requestHeaders := requestHeaders;
            requestOptions :=
              {| target := options; method := method; signal := signal |} |}
  end end end end.

(** Lines 234-242 of [_call]: the request headers just before they are
    assigned to the outgoing message. *)
Definition finalizeHeaders (method : jsstring) (requestBody : BodyState)
    (requestHeaders : Headers.t) : Headers.t :=
  let requestHeaders :=
    if Headers.has (lit "Accept") requestHeaders then requestHeaders
    else Headers.set (lit "Accept") (lit "*/*") requestHeaders in
  let requestHeaders :=
    match contentType requestBody with
    | Some type =>
        if truthy type then Headers.set (lit "Content-Type") type requestHeaders
        else requestHeaders
    | None => requestHeaders
    end in
  match body requestBody, contentLength requestBody with
  | None, _ =>
      if bool_decide (method = lit "POST") || bool_decide (method = lit "PUT")
      then Headers.set (lit "Content-Length") (lit "0") requestHeaders
      else requestHeaders
  | Some _, Some n =>
      Headers.set (lit "Content-Length") (of_nat n) requestHeaders
  | Some _, None => requestHeaders
  end.

(** The synchronous part of [_call]: the message sent, and the state with
    the request headers as [_call] leaves them. *)
Definition _call (s : State) : OutgoingMessage * State :=
  let requestHeaders :=
    finalizeHeaders (method (requestOptions s)) (requestBody s) (requestHeaders s) in
  ({| outgoingOptions := requestOptions s;
      outgoingHeaders := requestHeaders;
      outgoingBody := bytesOf (body (requestBody s)) |},
   {| initBody := initBody s; redirect := redirect s;
      requestUrl := requestUrl s; requestBody := requestBody s;
      redirects := redirects s; requestHeaders := requestHeaders;
      requestOptions := requestOptions s |}).

(** Lines 204-229 of the response handler: the response is resolved. The
    abort listener it installs acts only on a later abort event. *)
Definition deliver (s : State) (incoming : IncomingMessage) (headers : Headers.t)
  : Outcome :=
  let method := method (requestOptions s) in
  let encoding := toLowerCase <$> Headers.get (lit "Content-Encoding") headers in
  let '(headers, body) :=
    if bool_decide (method = lit "HEAD")
       || bool_decide (statusCode incoming = 204%nat)
       || bool_decide (statusCode incoming = 304%nat)
    then (headers, None)
    else
      match encoding with
      | Some encoding =>
          (Headers.set (lit "Content-Encoding") encoding headers,
           Some (Piped (createContentDecoder encoding) (incomingBody incoming)))
      | None => (headers, Some (Plain (incomingBody incoming)))
      end in
  match createResponse body
          {| ri_status := statusCode incoming;
             ri_statusText := statusMessage incoming;
             ri_headers := headers |}
          (href (requestUrl s)) (lit "default") (0 <? redirects s)%nat
  with
  | Ok response => Resolve response
  | Throw e => Uncaught e
  end.

Definition redirectModeError : JsError :=
  Error (lit "URI requested responds with a redirect, redirect mode is set to error").
Definition streamedBodyError : JsError :=
  Error (lit "Cannot follow redirect with a streamed body").

(** Lines 179-181: the redirect turns the request into a bodiless GET. *)
Definition downgradesToGet (status : nat) (method : jsstring) : bool :=
  bool_decide (status = 303%nat)
  || (bool_decide (status = 301%nat) || bool_decide (status = 302%nat))
     && bool_decide (method = lit "POST").

(** Lines 196-199: the state [_call] is re-entered with. *)
Definition retarget (s : State) (redirects : nat) (requestBody : BodyState)
    (method : jsstring) (requestHeaders : Headers.t) (locationURL : URL)
  : Outcome :=
  match urlToHttpOptions locationURL with
  | Throw e => Uncaught e
  | Ok options =>
      Recall
        {| initBody := initBody s; redirect := redirect s;
           requestUrl := locationURL; requestBody := requestBody;
           redirects := redirects; requestHeaders := requestHeaders;
           requestOptions :=
             {| target := options; method := method;
                signal := signal (requestOptions s) |} |}
  end.

(** The ['response'] handler of [_call]; [random] is the entropy a
    re-extraction of the body may draw. *)
Definition onResponse (s : State) (incoming : IncomingMessage)
    (random : list byte) : Outcome :=
  let method := method (requestOptions s) in
  let status := statusCode incoming in
  let headers := headersOfRawHeaders (rawHeaders incoming) in
  if isRedirectCode status then
    let location := Headers.get (lit "Location") headers in
    match
      match location with
      | Some location =>
          match newURL location (Some (requestUrl s)) with
          | Some u => Ok (Some u)
          | None => Throw invalidURL
          end
      | None => Ok None
      end
    with
    | Throw e => Uncaught e
    | Ok locationURL =>
        match redirect s, locationURL with
        | error, _ => Reject redirectModeError
        | manual, Some locationURL =>
            deliver s incoming
              (Headers.set (lit "Location") (href locationURL) headers)
        | follow, Some locationURL =>
            let redirects := S (redirects s) in
            if (MAX_REDIRECTS <? redirects)%nat then
              Reject (Error (lit "maximum redirect reached at: "
                             ++ href (requestUrl s)))
            else if negb (isHttp locationURL) then
              Reject (Error (lit "URL scheme must be a HTTP(S) scheme"))
            else if downgradesToGet status method then
              retarget s redirects (extractBody None random) (lit "GET")
                (Headers.remove (lit "Content-Length") (requestHeaders s))
                locationURL
            else if bool_decide (body (requestBody s) ≠ None)
                    && bool_decide (contentLength (requestBody s) = None) then
              Reject streamedBodyError
            else
              retarget s redirects (extractBody (initBody s) random) method
                (requestHeaders s) locationURL
        | _, None => deliver s incoming headers
        end
    end
  else deliver s incoming headers.

(** A whole exchange: [server] answers each message sent (or fails, which
    the ['error'] handler turns into a rejection), [entropy n] is what the
    extraction on hop [n] draws. [None] only when [fuel] runs out. *)
Fixpoint exchange (fuel : nat) (server : OutgoingMessage → result IncomingMessage)
    (entropy : nat → list byte) (s : State) : option Outcome :=
  match fuel with
  | O => None
  | S fuel =>
      let '(outgoing, s) := _call s in
      match server outgoing with
      | Throw e => Some (Reject e)
      | Ok incoming =>
          match onResponse s incoming (entropy (S (redirects s))) with
          | Recall next => exchange fuel server entropy next
          | outcome => Some outcome
          end
      end
  end.

(** [fetch(input, init)] *)
Definition fetch (server : OutgoingMessage → result IncomingMessage)
    (entropy : nat → list byte) (input : Input) (requestInit : option RequestInit)
  : option Outcome :=
  match _fetch input requestInit (entropy 0%nat) with
  | Throw e => Some (Reject e)
  | Ok s => exchange (S (S MAX_REDIRECTS)) server entropy s
  end.

End WithURLParser.

End Fetch.

(** * Properties *)

(** ** A host for the examples

    A small [new URL]: absolute references carry their scheme, a reference
    starting with a slash is resolved against the origin of the base. *)

Module Host.
Import Fetch.

Definition isLetter (c : N) : bool :=
  ((65 <=? c) && (c <=? 90)) || ((97 <=? c) && (c <=? 122)).

(** The scheme of an absolute reference and what follows its colon. *)
Fixpoint splitScheme (s : jsstring) : option (jsstring * jsstring) :=
  match s with
  | [] => None
  | c :: s' =>
      if c =? 58 then Some ([], s')
      else if isLetter c then
        match splitScheme s' with
        | Some (scheme, rest) => Some (lower_unit c :: scheme, rest)
        | None => None
        end
      else None
  end.

Fixpoint untilSlash (s : jsstring) : jsstring :=
  match s with
  | [] => []
  | c :: s' => if c =? 47 then [] else c :: untilSlash s'
  end.

Definition origin (u : URL) : jsstring :=
  match splitScheme (href u) with
  | Some (scheme, 47 :: 47 :: authority) =>
      scheme ++ lit "://" ++ untilSlash authority
  | _ => []
  end.

Definition newURL (input : jsstring) (base : option URL) : option URL :=
  match splitScheme input with
  | Some (c :: scheme, _) =>
      Some {| protocol := (c :: scheme) ++ lit ":"; href := input |}
  | _ =>
      match input, base with
      | 47 :: _, Some b => Some {| protocol := protocol b; href := origin b ++ input |}
      | _, _ => None
      end
  end.

End Host.

(** ** The header adapter *)

Section HeaderAdapter.
Import Fetch.

(** The keys of a raw header list: its entries at even positions. *)
Fixpoint rawKeys (rawHeaders : list jsstring) : list jsstring :=
  match rawHeaders with
  | [] => []
  | [key] => [key]
  | key :: _ :: rest => key :: rawKeys rest
  end.

Lemma headersOfRawHeaders_from_app (pre rest : list jsstring) (h : Headers.t) :
  Nat.Even (length pre) →
  headersOfRawHeaders_from (pre ++ rest) h
  = headersOfRawHeaders_from rest (headersOfRawHeaders_from pre h).
Proof.
  intros [n Hn]. revert pre h Hn.
  induction n as [|n IH]; intros pre h Hn.
  - destruct pre; [reflexivity | simpl in Hn; lia].
  - destruct pre as [|k [|v pre]]; simpl in Hn; try lia.
    simpl. apply IH. lia.
Qed.

Lemma headersOfRawHeaders_from_other (rawHeaders : list jsstring)
    (h : Headers.t) (name : jsstring) :
  toLowerCase name ∉ map toLowerCase (rawKeys rawHeaders) →
  Headers.get name (headersOfRawHeaders_from rawHeaders h) = Headers.get name h.
Proof.
  remember (length rawHeaders) as n eqn:Hn.
  revert rawHeaders h Hn.
  induction (lt_wf n) as [n _ IH]; intros raw h -> Hnot.
  destruct raw as [|k [|v rest]]; [reflexivity | |];
    cbn [rawKeys map] in Hnot; apply not_elem_of_cons in Hnot as [Hne Hrest].
  - apply lookup_insert_ne. congruence.
  - cbn [headersOfRawHeaders_from].
    rewrite (IH (length rest)); [| simpl; lia | reflexivity | exact Hrest].
    apply lookup_insert_ne. congruence.
Qed.

(** C10. Whatever precedes it in the raw header list, the value paired with
    the last occurrence of a key (compared case-insensitively) is the one
    the [Headers] built from the list holds for that key. *)
Theorem headersOfRawHeaders_last_wins
    (pre post : list jsstring) (key value name : jsstring) :
  Nat.Even (length pre) →
  toLowerCase name = toLowerCase key →
  toLowerCase key ∉ map toLowerCase (rawKeys post) →
  Headers.get name (headersOfRawHeaders (pre ++ key :: value :: post))
  = Some value.
Proof.
  intros Heven Hname Hlast. unfold headersOfRawHeaders.
  rewrite headersOfRawHeaders_from_app by assumption.
  cbn [headersOfRawHeaders_from].
  rewrite headersOfRawHeaders_from_other by (rewrite Hname; assumption).
  unfold Headers.get, Headers.set. rewrite Hname.
  apply lookup_insert_eq.
Qed.

End HeaderAdapter.

Lemma headersOfRawHeaders_last_wins_witness :
  Headers.get (lit "SET-COOKIE")
    (Fetch.headersOfRawHeaders
       ([lit "Set-Cookie"; lit "a=1"; lit "Vary"; lit "Accept"]
          ++ lit "set-cookie" :: lit "b=2" :: [lit "X-Inspect"; lit "inspect"]))
  = Some (lit "b=2").
Proof.
  apply headersOfRawHeaders_last_wins.
  - exists 2%nat. reflexivity.
  - reflexivity.
  - intros H%list_elem_of_In. vm_compute in H.
    destruct H as [H|[]]. discriminate H.
Defined.

(** ** The deflate decoder *)

Section Deflate.
Import Encoding.

(** The variant the first byte of a stream selects. *)
Definition variantOf (b : byte) : Inflater :=
  if N.land (Byte.to_N b) 0x0f =? 0x08 then Inflate else InflateRaw.

Lemma transformAll_empty (empties : Body.Chunks) (this : InflateStream) :
  Forall (λ chunk, chunk = []) empties →
  _inflate this = None →
  transformAll empties this = this.
Proof.
  intros Hall Hnone. induction Hall as [|chunk empties -> _ IH]; [reflexivity|].
  unfold transformAll in *. cbn [fold_left].
  unfold _transform at 2. rewrite Hnone. exact IH.
Qed.

Lemma transformAll_committed (chunks : Body.Chunks) (z : ZlibTransform) :
  transformAll chunks {| _inflate := Some z |}
  = {| _inflate := Some {| kind := kind z; written := written z ++ chunks |} |}.
Proof.
  revert z. induction chunks as [|chunk chunks IH]; intros z.
  - cbn. rewrite app_nil_r. destruct z; reflexivity.
  - unfold transformAll in *. cbn [fold_left].
    unfold _transform at 2. cbn [_inflate]. rewrite IH.
    unfold write. cbn. rewrite <- app_assoc. reflexivity.
Qed.

(** C7. A deflate transform that has only seen empty chunks has committed to
    nothing; the first byte [b] of the first non-empty chunk commits it, to
    zlib-wrapped deflate when [(b & 0x0F) == 0x08] and to raw deflate
    otherwise, and every chunk from that one on goes to the inner transform
    of that variant. *)
Theorem inflate_variant_of_first_byte (empties : Body.Chunks) :
  Forall (λ chunk, chunk = []) empties →
  _inflate (transformAll empties newInflateStream) = None
  ∧ ∀ (b : byte) (rest : list byte) (more : Body.Chunks),
      _inflate (transformAll (empties ++ (b :: rest) :: more) newInflateStream)
      = Some {| kind := if N.land (Byte.to_N b) 0x0f =? 0x08
                        then Inflate else InflateRaw;
                written := (b :: rest) :: more |}.
Proof.
  intros Hall. split.
  - rewrite transformAll_empty; [reflexivity | exact Hall | reflexivity].
  - intros b rest more. unfold transformAll.
    rewrite fold_left_app. fold (transformAll empties newInflateStream).
    rewrite (transformAll_empty empties newInflateStream Hall eq_refl).
    cbn [fold_left]. unfold _transform at 2. cbn [_inflate newInflateStream].
    fold (transformAll more). unfold write. cbn [kind written].
    rewrite transformAll_committed. reflexivity.
Qed.

End Deflate.

Lemma inflate_variant_of_first_byte_witness :
  Encoding._inflate
    (Encoding.transformAll ([[]; []] ++ [Byte.x78; Byte.x9c] :: [[Byte.x01]])
       Encoding.newInflateStream)
  = Some {| Encoding.kind := Encoding.Inflate;
            Encoding.written := [[Byte.x78; Byte.x9c]; [Byte.x01]] |}.
Proof.
  apply (inflate_variant_of_first_byte [[]; []]).
  repeat constructor.
Defined.

(** ** The body extractor *)

Section Extractor.
Import Body.

(** The invariant of the data model: the stream is null exactly when the
    length is 0 or unknown and there is nothing to send. *)
Definition nullIffNothingToSend (state : BodyState) : Prop :=
  body state = None
  ↔ (contentLength state = Some 0%nat ∨ contentLength state = None)
    ∧ bytesOf (body state) = [].

(** C9, as stated, fails on an empty byte buffer: zero length, nothing to
    send, and a stream that is not null. *)
Lemma extractBody_empty_buffer_not_null :
  ¬ nullIffNothingToSend (extractBody (Some (InitUint8Array [])) []).
Proof.
  unfold nullIffNothingToSend. cbn. intros [_ H].
  discriminate H. split; [left|]; reflexivity.
Qed.

(** C9, amended. The stream is null exactly when the input is null, and
    then the length is 0 and there is nothing to send. *)
Theorem extractBody_null_iff_no_input (object : option BodyInit)
    (random : list byte) :
  let state := extractBody object random in
  (body state = None ↔ object = None)
  ∧ (body state = None →
     contentLength state = Some 0%nat ∧ bytesOf (body state) = []).
Proof.
  destruct object as [[]|]; cbn; repeat split; intros; try done.
Qed.

End Extractor.

(** ** The multipart encoder *)

Section Utf8.

(** The three cases of the encoder on a non-empty string. *)
Lemma encode_pair (c d : N) (s : jsstring) :
  is_high_surrogate c = true → is_low_surrogate d = true →
  encode (c :: d :: s)
  = utf8_of_scalar (0x10000 + (c - 0xD800) * 0x400 + (d - 0xDC00)) ++ encode s.
Proof. intros Hc Hd. cbn [encode]. rewrite Hc, Hd. reflexivity. Qed.

Lemma encode_lone_high (c : N) (s : jsstring) :
  is_high_surrogate c = true →
  (∀ l, head s = Some l → is_low_surrogate l = false) →
  encode (c :: s) = replacement ++ encode s.
Proof.
  intros Hc Hs. destruct s as [|l s]; cbn [encode]; rewrite Hc; [reflexivity|].
  rewrite (Hs l); reflexivity.
Qed.

Lemma encode_not_high (c : N) (s : jsstring) :
  is_high_surrogate c = false →
  encode (c :: s)
  = (if is_low_surrogate c then replacement else utf8_of_scalar c) ++ encode s.
Proof.
  intros Hc. cbn [encode]. rewrite Hc. destruct (is_low_surrogate c); reflexivity.
Qed.

(** Encoding distributes over a concatenation unless the seam splits a
    surrogate pair. *)
Lemma encode_app (a b : jsstring) :
  (∀ h l, last a = Some h → head b = Some l →
          is_high_surrogate h = true → is_low_surrogate l = false) →
  encode (a ++ b) = encode a ++ encode b.
Proof.
  remember (length a) as n eqn:Hn. revert a Hn.
  induction (lt_wf n) as [n _ IH]; intros a -> Hseam.
  destruct a as [|c a]; [reflexivity|].
  assert (Hrec : ∀ a', (length a' < length (c :: a))%nat →
                       (a' ≠ [] → last a' = last (c :: a)) →
                       encode (a' ++ b) = encode a' ++ encode b).
  { intros a' Hlen Hlast. destruct a' as [|e a']; [reflexivity|].
    apply (IH (length (e :: a'))); [exact Hlen | reflexivity |].
    intros h l Hh. apply Hseam. rewrite <- Hlast; done. }
  assert (Htail : ∀ (x : N) a', a' ≠ [] → last a' = last (x :: a'))
    by (intros x [|? ?] ?; done).
  destruct (is_high_surrogate c) eqn:Hc.
  - destruct a as [|d a].
    + change ([c] ++ b) with (c :: b).
      rewrite (encode_lone_high c b), (encode_lone_high c []); try done.
      intros l Hl. apply (Hseam c l); done.
    + destruct (is_low_surrogate d) eqn:Hd.
      * change ((c :: d :: a) ++ b) with (c :: d :: (a ++ b)).
        rewrite !encode_pair by done.
        rewrite Hrec; [by rewrite app_assoc | simpl; lia |].
        intros Ha. rewrite <- (Htail c (d :: a)) by done. apply Htail, Ha.
      * change ((c :: d :: a) ++ b) with (c :: (d :: a) ++ b).
        rewrite !(encode_lone_high c); try done.
        -- rewrite Hrec; [by rewrite app_assoc | simpl; lia |].
           intros _. apply Htail. done.
        -- intros l [= <-]. exact Hd.
        -- intros l [= <-]. exact Hd.
  - change ((c :: a) ++ b) with (c :: (a ++ b)).
    rewrite !encode_not_high by done.
    rewrite Hrec; [by rewrite app_assoc | simpl; lia |].
    intros Ha. apply Htail. exact Ha.
Qed.

(** A string that ends in a line feed or starts with a carriage return can
    be encoded apart from its neighbour. *)
Lemma encode_app_after_lf (a b : jsstring) :
  encode ((a ++ [10]) ++ b) = encode (a ++ [10]) ++ encode b.
Proof.
  apply encode_app. intros h l Hh _ Hhigh.
  rewrite last_snoc in Hh. injection Hh as <-. discriminate Hhigh.
Qed.

Lemma encode_app_before_cr (a b : jsstring) :
  encode (a ++ 13 :: b) = encode a ++ encode (13 :: b).
Proof.
  apply encode_app. intros h l _ Hl _. injection Hl as <-. reflexivity.
Qed.

End Utf8.

Section Multipart.
Import Body.

(** Every blob entry reports the number of bytes its stream yields. *)
Definition accurateSizes (form : FormData) : Prop :=
  Forall
    (λ entry : jsstring * FormDataEntryValue,
       match entry.2 with
       | EntryFile file => blob_size file = length (concat (blob_stream file))
       | EntryString _ => True
       end)
    form.

(** The pattern [formdata-[0-9a-f]{16}], anchored at both ends. *)
Definition isLowerHex (c : N) : bool :=
  ((48 <=? c) && (c <=? 57)) || ((97 <=? c) && (c <=? 102)).

Definition matchesBoundaryPattern (s : jsstring) : bool :=
  bool_decide (take 9 s = lit "formdata-")
  && bool_decide (length (drop 9 s) = 16%nat)
  && forallb isLowerHex (drop 9 s).

Lemma hex_of_byte_lower (b : byte) : forallb isLowerHex (hex_of_byte b) = true.
Proof. destruct b; reflexivity. Qed.

Lemma toHex_length (bs : list byte) : length (toHex bs) = (2 * length bs)%nat.
Proof.
  induction bs as [|b bs IH]; [reflexivity|].
  unfold toHex in *. cbn [map concat]. rewrite length_app, IH. simpl. lia.
Qed.

Lemma toHex_lower (bs : list byte) : forallb isLowerHex (toHex bs) = true.
Proof.
  induction bs as [|b bs IH]; [reflexivity|].
  unfold toHex in *. cbn [map concat].
  rewrite forallb_app, hex_of_byte_lower, IH. reflexivity.
Qed.

Lemma makeFormBoundary_pattern (random : list byte) :
  length random = 8%nat → matchesBoundaryPattern (makeFormBoundary random) = true.
Proof.
  intros Hlen. unfold matchesBoundaryPattern, makeFormBoundary.
  change 9%nat with (length (lit "formdata-")).
  rewrite take_app_length, drop_app_length, toHex_length, Hlen, toHex_lower.
  reflexivity.
Qed.

Lemma getFormHeader_ends_lf (boundary name : jsstring) (field : FormDataEntryValue) :
  ∃ h, getFormHeader boundary name field = h ++ [10].
Proof.
  unfold getFormHeader.
  assert (Hcrlf : ∀ h : jsstring, h ++ CRLF ++ CRLF = (h ++ [13; 10; 13]) ++ [10])
    by (intros h; rewrite <- app_assoc; reflexivity).
  destruct field; rewrite Hcrlf; eexists; reflexivity.
Qed.

(** The bytes one entry puts on the wire: header block, value, CRLF. *)
Lemma entry_bytes (boundary name : jsstring) (value : FormDataEntryValue) :
  match value with
  | EntryFile file => blob_size file = length (concat (blob_stream file))
  | EntryString _ => True
  end →
  length (concat
    match value with
    | EntryFile file =>
        [encode (getFormHeader boundary name value)]
          ++ blob_stream file ++ [encode CRLF]
    | EntryString s =>
        [encode (getFormHeader boundary name value ++ s ++ CRLF)]
    end)
  = (byteLength (getFormHeader boundary name value)
     + match value with
       | EntryFile file => blob_size file
       | EntryString s => byteLength s
       end
     + CRLF_LENGTH)%nat.
Proof.
  intros Hsize. unfold byteLength. destruct value as [s|file].
  - destruct (getFormHeader_ends_lf boundary name (EntryString s)) as [h ->].
    cbn [concat]. rewrite app_nil_r.
    rewrite encode_app_after_lf.
    change (s ++ CRLF) with (s ++ 13 :: [10]).
    rewrite encode_app_before_cr.
    rewrite !length_app. change (length (encode [13; 10])) with CRLF_LENGTH. lia.
  - rewrite !concat_app, !length_app, Hsize. cbn [concat].
    rewrite !app_nil_r. change (length (encode CRLF)) with CRLF_LENGTH. lia.
Qed.

Lemma getFormDataLength_bytes (form : FormData) (boundary : jsstring) :
  accurateSizes form →
  getFormDataLength form boundary
  = length (concat (generatorOfFormData form boundary)).
Proof.
  intros Hacc. unfold getFormDataLength, generatorOfFormData.
  rewrite concat_app, length_app. cbn [concat]. rewrite app_nil_r.
  fold (byteLength (getFormFooter boundary)).
  generalize (byteLength (getFormFooter boundary)) as footer.
  induction Hacc as [|[name value] form Hentry _ IH]; intros footer.
  - reflexivity.
  - cbn [fold_left flat_map]. rewrite IH.
    rewrite concat_app, length_app.
    rewrite (entry_bytes boundary name value Hentry). lia.
Qed.

(** C8. For a [FormData] whose blobs report their sizes accurately, the
    extractor draws a boundary of the form [formdata-[0-9a-f]{16}], streams
    the multipart encoding under it, and announces as [contentLength]
    exactly the number of bytes that stream yields: per entry the header
    block, the value and a CRLF, and the footer at the end. *)
Theorem formData_contentLength_exact (form : FormData) (random : list byte) :
  length random = 8%nat →
  accurateSizes form →
  let boundary := makeFormBoundary random in
  let state := extractBody (Some (InitFormData form)) random in
  matchesBoundaryPattern boundary = true
  ∧ contentType state = Some (lit "multipart/form-data; boundary=" ++ boundary)
  ∧ body state = Some (Readable (generatorOfFormData form boundary))
  ∧ contentLength state = Some (length (bytesOf (body state))).
Proof.
  intros Hlen Hacc. cbn.
  repeat split.
  - apply makeFormBoundary_pattern, Hlen.
  - f_equal. apply getFormDataLength_bytes, Hacc.
Qed.

End Multipart.

(** The form of the test suite, [FormData { a: "1" }], and a blob entry. *)
Definition formA1 : Body.FormData :=
  [(lit "a", Body.EntryString (lit "1"));
   (lit "file",
    Body.EntryFile
      {| Body.blob_size := 3; Body.blob_type := [];
         Body.blob_name := Some (lit "a.txt");
         Body.blob_stream := [[Byte.x61]; [Byte.x3d; Byte.x31]] |})].

Definition random8 : list byte :=
  [Byte.x00; Byte.x1f; Byte.x2e; Byte.x3d; Byte.x4c; Byte.x5b; Byte.x6a; Byte.xff].

Lemma formData_contentLength_exact_witness :
  let boundary := Body.makeFormBoundary random8 in
  let state := Body.extractBody (Some (Body.InitFormData formA1)) random8 in
  matchesBoundaryPattern boundary = true
  ∧ Body.contentType state = Some (lit "multipart/form-data; boundary=" ++ boundary)
  ∧ Body.body state = Some (Body.Readable (Body.generatorOfFormData formA1 boundary))
  ∧ Body.contentLength state = Some (length (Body.bytesOf (Body.body state))).
Proof.
  apply (formData_contentLength_exact formA1 random8).
  - reflexivity.
  - repeat constructor.
Defined.

(** The single-entry form of the test suite is announced with 109 bytes. *)
Example formData_test_vector :
  Body.contentLength
    (Body.extractBody
       (Some (Body.InitFormData [(lit "a", Body.EntryString (lit "1"))])) random8)
  = Some 109%nat.
Proof. vm_compute. reflexivity. Qed.

(** ** Reading headers back *)

Section HeaderLookups.

Lemma get_set_same (name name' value : jsstring) (h : Headers.t) :
  toLowerCase name = toLowerCase name' →
  Headers.get name' (Headers.set name value h) = Some value.
Proof. intros Heq. unfold Headers.get. rewrite <- Heq. apply lookup_insert_eq. Qed.

Lemma get_set_other (name name' value : jsstring) (h : Headers.t) :
  toLowerCase name ≠ toLowerCase name' →
  Headers.get name' (Headers.set name value h) = Headers.get name' h.
Proof. intros Hne. by apply lookup_insert_ne. Qed.

Lemma get_remove_same (name name' : jsstring) (h : Headers.t) :
  toLowerCase name = toLowerCase name' →
  Headers.get name' (Headers.remove name h) = None.
Proof. intros Heq. unfold Headers.get. rewrite <- Heq. apply lookup_delete_eq. Qed.

Lemma get_remove_other (name name' : jsstring) (h : Headers.t) :
  toLowerCase name ≠ toLowerCase name' →
  Headers.get name' (Headers.remove name h) = Headers.get name' h.
Proof. intros Hne. by apply lookup_delete_ne. Qed.

Lemma has_get (name : jsstring) (h : Headers.t) :
  Headers.has name h = bool_decide (is_Some (Headers.get name h)).
Proof. reflexivity. Qed.

End HeaderLookups.

(** Two literal header names differ, or agree, by evaluation. *)
Ltac names_differ :=
  let H := fresh in intros H; vm_compute in H; discriminate H.

Ltac headers_simpl :=
  repeat first
    [ rewrite get_set_same by reflexivity
    | rewrite get_remove_same by reflexivity
    | rewrite get_set_other by names_differ
    | rewrite get_remove_other by names_differ ].

(** ** The method validator *)

Section Methods.
Import Fetch.

Lemma methodToHttpOption_forbidden (m : jsstring) :
  m = lit "CONNECT" ∨ m = lit "TRACE" ∨ m = lit "TRACK" →
  methodToHttpOption (Some m) = Throw (unsupportedMethod m).
Proof. intros [-> | [-> | ->]]; reflexivity. Qed.

Lemma methodToHttpOption_absent : methodToHttpOption None = Ok (lit "GET").
Proof. reflexivity. Qed.

Lemma methodToHttpOption_other (m : jsstring) :
  m ≠ lit "CONNECT" → m ≠ lit "TRACE" → m ≠ lit "TRACK" → m ≠ [] →
  methodToHttpOption (Some m) = Ok (toUpperCase m).
Proof.
  intros H1 H2 H3 H4. unfold methodToHttpOption.
  repeat case_decide; try done. destruct m; done.
Qed.

(** C5, at the failing input. The method ["connect"] has the canonical
    uppercase form [CONNECT], yet it is not rejected: the forbidden names
    are compared before the method is uppercased, and the request goes out
    as [CONNECT]. *)
Theorem methodToHttpOption_lowercase_connect :
  toUpperCase (lit "connect") = lit "CONNECT"
  ∧ methodToHttpOption (Some (lit "connect")) = Ok (lit "CONNECT")
  ∧ methodToHttpOption (Some (lit "CONNECT"))
    = Throw (unsupportedMethod (lit "CONNECT")).
Proof. repeat split. Qed.

End Methods.

(** ** Building the request *)

Section Setup.
Import Body Fetch.

Variable newURL : jsstring → option URL → option URL.

(** The claim of the specification at one call: every field present in
    [init] overrides the field of the [Request]. *)
Definition initOverridesRequest (r : Request) (init : RequestInit)
    (random : list byte) : Prop :=
  ∀ s, _fetch newURL (InputRequest r) (Some init) random = Ok s →
    (∀ m, init_method init = Some m →
          methodToHttpOption (Some m) = Ok (method (requestOptions s)))
    ∧ (∀ b, init_body init = Some b → initBody s = Some b)
    ∧ (∀ sig, init_signal init = Some sig → signal (requestOptions s) = Some sig)
    ∧ (∀ mode, init_redirect init = Some mode →
          toRedirectOption (Some mode) = Ok (redirect s))
    ∧ (∀ h, init_headers init = Some h → requestHeaders s = Headers.new (Some h)).

(** C1, amended. With a [Request] as input, the method, body, signal and
    redirect mode are those of the [Request], whatever [init] holds; the
    headers are those of [init.headers] when it is given, so that it wins
    on every key, and those of the [Request] otherwise. *)
Theorem fetch_request_fields (r : Request) (requestInit : option RequestInit)
    (random : list byte) (s : State) :
  _fetch newURL (InputRequest r) requestInit random = Ok s →
  methodToHttpOption (Some (request_method r)) = Ok (method (requestOptions s))
  ∧ initBody s = InitReadableStream <$> request_body r
  ∧ requestBody s = extractBody (initBody s) random
  ∧ signal (requestOptions s) = Some (request_signal r)
  ∧ toRedirectOption (Some (request_redirect r)) = Ok (redirect s)
  ∧ requestHeaders s
    = match requestInit ≫= init_headers with
      | Some h => Headers.new (Some h)
      | None => request_headers r
      end.
Proof.
  unfold _fetch.
  destruct (toRedirectOption _) as [mode|] eqn:Hmode; [|done].
  destruct (newURL _ _) as [u|]; [|done].
  destruct (urlToHttpOptions u) as [options|]; [|done].
  destruct (methodToHttpOption _) as [m|] eqn:Hm; [|done].
  intros [= <-]. cbn.
  repeat split. destruct (requestInit ≫= init_headers); reflexivity.
Qed.

(** The claim of the specification at one request: a [Content-Type] the
    caller supplied is the one sent. *)
Definition callerContentTypeWins (s : State) : Prop :=
  ∀ supplied,
    Headers.get (lit "Content-Type") (requestHeaders s) = Some supplied →
    Headers.get (lit "Content-Type") (outgoingHeaders (_call s).1) = Some supplied.

(** What [_call] does to [Content-Type]: whenever the body carries a
    content type, the header sent is that type, also when the caller
    supplied another one, the [set] lacking the [has] test its neighbour
    for [Accept] has; the caller's [Content-Type] goes out unchanged only
    when the body carries none. *)
Theorem call_contentType (s : State) :
  Headers.get (lit "Content-Type") (outgoingHeaders (_call s).1)
  = match contentType (requestBody s) with
    | Some type =>
        if truthy type then Some type
        else Headers.get (lit "Content-Type") (requestHeaders s)
    | None => Headers.get (lit "Content-Type") (requestHeaders s)
    end.
Proof.
  unfold _call. cbn [fst outgoingHeaders]. unfold finalizeHeaders.
  destruct (Headers.has _ _);
    destruct (contentType (requestBody s)) as [type|];
    try destruct (truthy type);
    destruct (body (requestBody s)); destruct (contentLength (requestBody s));
    try destruct (_ || _);
    headers_simpl; reflexivity.
Qed.

End Setup.

Section SetupExamples.
Import Body Fetch.

Definition noSignal : AbortSignal := {| aborted := false; reason := [] |}.

(** [new Request("http://example.com/inspect", { headers: { "x-custom-header": "abc" } })] *)
Definition getRequest : Request :=
  {| request_url := lit "http://example.com/inspect";
     request_body := None;
     request_signal := noSignal;
     request_redirect := lit "follow";
     request_method := lit "GET";
     request_headers := Headers.set (lit "x-custom-header") (lit "abc") ∅ |}.

(** [{ method: "POST" }] *)
Definition postInit : RequestInit :=
  {| init_method := Some (lit "POST"); init_headers := None;
     init_body := None; init_signal := None; init_redirect := None |}.

(** [{ headers: { "x-custom-header": "def" } }] *)
Definition headersInit : RequestInit :=
  {| init_method := None;
     init_headers :=
       Some (Headers.InitEntries [(lit "x-custom-header", lit "def")]);
     init_body := None; init_signal := None; init_redirect := None |}.

(** [{ method: "POST", headers: { "Content-Type": "application/json" }, body: "{}" }] *)
Definition jsonInit : RequestInit :=
  {| init_method := Some (lit "POST");
     init_headers :=
       Some (Headers.InitEntries [(lit "Content-Type", lit "application/json")]);
     init_body := Some (InitString (lit "{}"));
     init_signal := None; init_redirect := None |}.

End SetupExamples.

(** C1, as stated, fails: [fetch(new Request(url), { method: "POST" })]
    sends the [GET] of the [Request]. *)
Lemma fetch_request_ignores_init_method :
  ¬ initOverridesRequest Host.newURL getRequest postInit [].
Proof.
  intros H. edestruct H as [Hmethod _]; [reflexivity|].
  specialize (Hmethod _ eq_refl). vm_compute in Hmethod. discriminate Hmethod.
Qed.

Lemma fetch_request_fields_witness :
  ∃ s, Fetch._fetch Host.newURL (Fetch.InputRequest getRequest) (Some headersInit) []
       = Fetch.Ok s
    ∧ (Fetch.methodToHttpOption (Some (Fetch.request_method getRequest))
       = Fetch.Ok (Fetch.method (Fetch.requestOptions s))
       ∧ Fetch.initBody s
         = Body.InitReadableStream <$> Fetch.request_body getRequest
       ∧ Fetch.requestBody s = Body.extractBody (Fetch.initBody s) []
       ∧ Fetch.signal (Fetch.requestOptions s)
         = Some (Fetch.request_signal getRequest)
       ∧ Fetch.toRedirectOption (Some (Fetch.request_redirect getRequest))
         = Fetch.Ok (Fetch.redirect s)
       ∧ Fetch.requestHeaders s
         = Headers.new
             (Some (Headers.InitEntries [(lit "x-custom-header", lit "def")]))).
Proof.
  eexists. split; [reflexivity|].
  apply (fetch_request_fields Host.newURL getRequest (Some headersInit) []).
  reflexivity.
Defined.

(** C2, at the failing input. A string body posted with a caller-supplied
    [Content-Type: application/json] goes out as [text/plain;charset=UTF-8]:
    the type of the body is set over the header the caller supplied. *)
Lemma call_overwrites_contentType :
  ∃ s, Fetch._fetch Host.newURL (Fetch.InputString (lit "http://example.com/inspect"))
         (Some jsonInit) [] = Fetch.Ok s
    ∧ Headers.get (lit "Content-Type") (Fetch.requestHeaders s)
      = Some (lit "application/json")
    ∧ Headers.get (lit "Content-Type") (Fetch.outgoingHeaders (Fetch._call s).1)
      = Some (lit "text/plain;charset=UTF-8")
    ∧ ¬ callerContentTypeWins s.
Proof.
  eexists. split; [reflexivity|].
  split; [reflexivity|]. split; [reflexivity|].
  intros H. specialize (H _ eq_refl). vm_compute in H. discriminate H.
Qed.

(** ** The redirect state machine *)

Section Redirects.
Import Body Fetch.

Variable newURL : jsstring → option URL → option URL.

(** The hop is one the handler follows: the mode is [follow], the status a
    redirect code, [Location] is present and resolves to [locationURL], an
    HTTP(S) URL, and the limit of redirects is not exceeded. *)
Definition followsRedirect (s : State) (incoming : IncomingMessage)
    (locationURL : URL) : Prop :=
  redirect s = follow
  ∧ isRedirectCode (statusCode incoming) = true
  ∧ (∃ location,
       Headers.get (lit "Location") (headersOfRawHeaders (rawHeaders incoming))
       = Some location
       ∧ newURL location (Some (requestUrl s)) = Some locationURL)
  ∧ (redirects s < MAX_REDIRECTS)%nat
  ∧ isHttp locationURL = true.

(** What the handler does on a hop it follows. *)
Lemma onResponse_follow (s : State) (incoming : IncomingMessage)
    (random : list byte) (locationURL : URL) :
  followsRedirect s incoming locationURL →
  onResponse newURL s incoming random
  = if downgradesToGet (statusCode incoming) (method (requestOptions s)) then
      retarget s (S (redirects s)) (extractBody None random) (lit "GET")
        (Headers.remove (lit "Content-Length") (requestHeaders s)) locationURL
    else if bool_decide (body (requestBody s) ≠ None)
            && bool_decide (contentLength (requestBody s) = None) then
      Reject streamedBodyError
    else
      retarget s (S (redirects s)) (extractBody (initBody s) random)
        (method (requestOptions s)) (requestHeaders s) locationURL.
Proof.
  intros (Hmode & Hcode & (location & Hlocation & Hurl) & Hcount & Hhttp).
  unfold onResponse. rewrite Hcode, Hlocation, Hurl, Hmode, Hhttp.
  replace (MAX_REDIRECTS <? S (redirects s))%nat with false
    by (symmetry; apply Nat.ltb_ge; lia).
  reflexivity.
Qed.

Lemma retarget_http (s : State) (n : nat) (b : BodyState) (m : jsstring)
    (h : Headers.t) (u : URL) :
  isHttp u = true →
  retarget s n b m h u
  = Recall {| initBody := initBody s; redirect := redirect s;
              requestUrl := u; requestBody := b; redirects := n;
              requestHeaders := h;
              requestOptions :=
                {| target := u; method := m;
                   signal := signal (requestOptions s) |} |}.
Proof. intros Hhttp. unfold retarget, urlToHttpOptions. rewrite Hhttp. reflexivity. Qed.

(** C3. On a followed hop with status 303, or with status 301 or 302 when
    the method is POST, the handler re-enters [_call] and the request then
    sent has method GET, no body and no [Content-Length]; on a followed hop
    with status 307 or 308 the method of the next request, if one is sent,
    is the current one. *)
Theorem redirect_downgrades_to_get (s : State) (incoming : IncomingMessage)
    (random : list byte) (locationURL : URL) :
  followsRedirect s incoming locationURL →
  let status := statusCode incoming in
  let current := method (requestOptions s) in
  (status = 303%nat ∨ (status = 301%nat ∨ status = 302%nat) ∧ current = lit "POST" →
   ∃ next,
     onResponse newURL s incoming random = Recall next
     ∧ body (requestBody next) = None
     ∧ method (outgoingOptions (_call next).1) = lit "GET"
     ∧ target (outgoingOptions (_call next).1) = locationURL
     ∧ outgoingBody (_call next).1 = []
     ∧ Headers.has (lit "Content-Length") (outgoingHeaders (_call next).1) = false)
  ∧ (status = 307%nat ∨ status = 308%nat →
     onResponse newURL s incoming random = Reject streamedBodyError
     ∨ ∃ next,
         onResponse newURL s incoming random = Recall next
         ∧ method (requestOptions next) = current).
Proof.
  intros Hfollow status current.
  pose proof Hfollow as (_ & _ & _ & _ & Hhttp).
  rewrite (onResponse_follow _ _ _ _ Hfollow).
  fold status current. split.
  - intros Hcase.
    assert (Hdown : downgradesToGet status current = true).
    { unfold downgradesToGet.
      destruct Hcase as [-> | [[-> | ->] ->]]; reflexivity. }
    rewrite Hdown, (retarget_http _ _ _ _ _ _ Hhttp).
    eexists. split; [reflexivity|]. cbn.
    repeat split.
    unfold finalizeHeaders. cbn.
    replace (bool_decide (lit "GET" = lit "POST") || bool_decide (lit "GET" = lit "PUT"))
      with false by reflexivity.
    rewrite has_get.
    destruct (Headers.has _ _); headers_simpl; reflexivity.
  - intros Hcase.
    assert (Hkeep : downgradesToGet status current = false).
    { unfold downgradesToGet. destruct Hcase as [-> | ->]; reflexivity. }
    rewrite Hkeep. destruct (_ && _); [left; reflexivity|].
    right. rewrite (retarget_http _ _ _ _ _ _ Hhttp).
    eexists. split; reflexivity.
Qed.

(** C6. On a followed hop that does not turn the request into a GET, a
    body that is not null and of unknown length makes the handler reject
    with the streamed-body error; otherwise the handler re-enters [_call]
    with the body extracted anew from the original body input, the method
    unchanged. *)
Theorem redirect_resends_body (s : State) (incoming : IncomingMessage)
    (random : list byte) (locationURL : URL) :
  followsRedirect s incoming locationURL →
  downgradesToGet (statusCode incoming) (method (requestOptions s)) = false →
  (body (requestBody s) ≠ None ∧ contentLength (requestBody s) = None →
   onResponse newURL s incoming random = Reject streamedBodyError)
  ∧ (¬ (body (requestBody s) ≠ None ∧ contentLength (requestBody s) = None) →
     ∃ next,
       onResponse newURL s incoming random = Recall next
       ∧ requestBody next = extractBody (initBody s) random
       ∧ initBody next = initBody s
       ∧ method (requestOptions next) = method (requestOptions s)
       ∧ requestUrl next = locationURL).
Proof.
  intros Hfollow Hkeep.
  pose proof Hfollow as (_ & _ & _ & _ & Hhttp).
  rewrite (onResponse_follow _ _ _ _ Hfollow), Hkeep.
  split.
  - intros [Hbody Hlength].
    rewrite (bool_decide_eq_true_2 _ Hbody), (bool_decide_eq_true_2 _ Hlength).
    reflexivity.
  - intros Hnot.
    replace (bool_decide (body (requestBody s) ≠ None)
             && bool_decide (contentLength (requestBody s) = None)) with false.
    + rewrite (retarget_http _ _ _ _ _ _ Hhttp).
      eexists. repeat split.
    + symmetry. apply andb_false_iff.
      destruct (decide (body (requestBody s) ≠ None)) as [Hbody|Hbody].
      * right. apply bool_decide_eq_false_2. intros Hlength. apply Hnot. done.
      * left. apply bool_decide_eq_false_2. exact Hbody.
Qed.

End Redirects.

Section BrokenRedirects.
Import Body Fetch.

Variable newURL : jsstring → option URL → option URL.

(** [createResponse] with the type ["default"], as the handler calls it,
    on a status and body the [Response] constructor accepts. *)
Lemma createResponse_default (body : option ResponseBody) (init : ResponseInit)
    (params_url : jsstring) (params_redirected : bool) :
  (200 ≤ ri_status init ≤ 599)%nat →
  nullBodyStatus (ri_status init) = false ∨ body = None →
  createResponse body init params_url (lit "default") params_redirected
  = Ok {| status := ri_status init; statusText := ri_statusText init;
          headers := ri_headers init; responseBody := body;
          url := params_url; type := lit "default";
          redirected := params_redirected |}.
Proof.
  intros [Hlow Hhigh] Hbody. unfold createResponse, newResponse.
  replace (ri_status init <? 200)%nat with false
    by (symmetry; apply Nat.ltb_ge; lia).
  replace (599 <? ri_status init)%nat with false
    by (symmetry; apply Nat.ltb_ge; lia).
  replace (nullBodyStatus (ri_status init) && bool_decide (body ≠ None))
    with false.
  - cbn. rewrite bool_decide_eq_false_2 by (intros H; by apply H).
    destruct params_redirected; reflexivity.
  - symmetry. destruct Hbody as [-> | ->]; [reflexivity|].
    apply andb_false_iff. right. apply bool_decide_eq_false_2. intros H. by apply H.
Qed.

(** A response with a redirect status is delivered under any content
    encoding and method: the [Response] constructor accepts it. *)
Lemma deliver_redirect_status (s : State) (incoming : IncomingMessage)
    (headers : Headers.t) :
  isRedirectCode (statusCode incoming) = true →
  ∃ response,
    deliver s incoming headers = Resolve response
    ∧ status response = statusCode incoming
    ∧ statusText response = statusMessage incoming
    ∧ (∀ name, toLowerCase name ≠ toLowerCase (lit "Content-Encoding") →
               Headers.get name (Fetch.headers response) = Headers.get name headers)
    ∧ url response = href (requestUrl s)
    ∧ redirected response = (0 <? redirects s)%nat.
Proof.
  intros Hcode. apply bool_decide_eq_true in Hcode.
  assert (Hrange : (200 ≤ statusCode incoming ≤ 599)%nat) by lia.
  assert (Hnull : nullBodyStatus (statusCode incoming) = false)
    by (apply bool_decide_eq_false_2; lia).
  unfold deliver.
  destruct (_ || _);
    [| destruct (toLowerCase <$> Headers.get (lit "Content-Encoding") headers)
         as [encoding|] ];
    (rewrite createResponse_default; [| exact Hrange | left; exact Hnull]);
    eexists; repeat split; cbn;
    intros name Hname; rewrite ?get_set_other by congruence; reflexivity.
Qed.

(** The claim of the specification at one response: it is delivered. *)
Definition deliveredAsOrdinary (s : State) (incoming : IncomingMessage)
    (random : list byte) : Prop :=
  ∃ response,
    onResponse newURL s incoming random = Resolve response
    ∧ status response = statusCode incoming.

(** C4, amended. A response with a redirect status and no [Location] is
    delivered as an ordinary response, with its status, status text and
    headers, when the redirect mode is [follow] or [manual]; when the mode
    is [error] the fetch is rejected with the redirect-mode error. *)
Theorem redirect_without_location (s : State) (incoming : IncomingMessage)
    (random : list byte) :
  isRedirectCode (statusCode incoming) = true →
  Headers.get (lit "Location") (headersOfRawHeaders (rawHeaders incoming)) = None →
  (redirect s = error →
   onResponse newURL s incoming random = Reject redirectModeError)
  ∧ (redirect s = follow ∨ redirect s = manual →
     onResponse newURL s incoming random
     = deliver s incoming (headersOfRawHeaders (rawHeaders incoming))
     ∧ ∃ response,
         onResponse newURL s incoming random = Resolve response
         ∧ status response = statusCode incoming
         ∧ statusText response = statusMessage incoming
         ∧ Headers.get (lit "Location") (Fetch.headers response) = None
         ∧ (∀ name,
              toLowerCase name ≠ toLowerCase (lit "Content-Encoding") →
              Headers.get name (Fetch.headers response)
              = Headers.get name (headersOfRawHeaders (rawHeaders incoming)))
         ∧ url response = href (requestUrl s)
         ∧ redirected response = (0 <? redirects s)%nat).
Proof.
  intros Hcode Hlocation.
  assert (Hhandler :
    onResponse newURL s incoming random
    = match redirect s with
      | error => Reject redirectModeError
      | _ => deliver s incoming (headersOfRawHeaders (rawHeaders incoming))
      end).
  { unfold onResponse. rewrite Hcode, Hlocation. destruct (redirect s); reflexivity. }
  rewrite Hhandler. split.
  - intros ->. reflexivity.
  - intros Hmode.
    assert (Hdeliver :
      match redirect s with
      | error => Reject redirectModeError
      | _ => deliver s incoming (headersOfRawHeaders (rawHeaders incoming))
      end = deliver s incoming (headersOfRawHeaders (rawHeaders incoming)))
      by (destruct Hmode as [-> | ->]; reflexivity).
    rewrite Hdeliver. split; [reflexivity|].
    destruct (deliver_redirect_status s incoming
                (headersOfRawHeaders (rawHeaders incoming)) Hcode)
      as (response & Hresolve & Hstatus & Htext & Hheaders & Hurl & Hredirected).
    exists response. repeat split; try assumption.
    rewrite Hheaders by names_differ. exact Hlocation.
Qed.

End BrokenRedirects.

(** ** Termination of the exchange *)

Section Termination.
Import Body Fetch.

Variable newURL : jsstring → option URL → option URL.

Lemma onResponse_recall (s next : State) (incoming : IncomingMessage)
    (random : list byte) :
  onResponse newURL s incoming random = Recall next →
  redirects next = S (redirects s) ∧ (redirects next ≤ MAX_REDIRECTS)%nat.
Proof.
  unfold onResponse, deliver, retarget.
  repeat case_match; try discriminate; intros [= <-]; cbn;
    (split; [reflexivity | by apply Nat.ltb_ge]).
Qed.

Lemma exchange_total (fuel : nat) (server : OutgoingMessage → result IncomingMessage)
    (entropy : nat → list byte) (s : State) :
  (redirects s ≤ MAX_REDIRECTS)%nat →
  (S MAX_REDIRECTS < fuel + redirects s)%nat →
  is_Some (exchange newURL fuel server entropy s).
Proof.
  revert s. induction fuel as [|fuel IH]; intros s Hmax Hfuel; [lia|].
  cbn [exchange]. unfold _call. cbn [redirects].
  destruct (server _) as [incoming|e]; [|eexists; reflexivity].
  match goal with |- context [onResponse newURL ?s' incoming ?r] =>
    destruct (onResponse newURL s' incoming r) as [response|reason|next|e] eqn:Hstep
  end; try (eexists; reflexivity).
  apply onResponse_recall in Hstep as [Hcount Hle]. cbn [redirects] in Hcount.
  apply IH; lia.
Qed.

(** Every call of [fetch] settles: the exchange ends within the fuel that
    [fetch] gives it. *)
Lemma fetch_total (server : OutgoingMessage → result IncomingMessage)
    (entropy : nat → list byte) (input : Input) (requestInit : option RequestInit) :
  is_Some (fetch newURL server entropy input requestInit).
Proof.
  unfold fetch. destruct (_fetch _ _ _ _) as [s|e] eqn:Hs; [|eexists; reflexivity].
  assert (Hstart : redirects s = 0%nat).
  { unfold _fetch in Hs.
    repeat case_match; try discriminate; injection Hs as <-; reflexivity. }
  apply exchange_total; rewrite Hstart; unfold MAX_REDIRECTS; lia.
Qed.

End Termination.

(** ** The scenarios of the test suite *)

Section Scenarios.
Import Body Fetch.

Definition urlOf (href : string) : URL :=
  {| protocol := lit "http:"; href := lit href |}.

(** [{ method: "POST", body: "a=1" }] *)
Definition postA1 : RequestInit :=
  {| init_method := Some (lit "POST"); init_headers := None;
     init_body := Some (InitString (lit "a=1"));
     init_signal := None; init_redirect := None |}.

(** [{ method: "POST", body: stream.Readable.from("tada") }] *)
Definition postStream : RequestInit :=
  {| init_method := Some (lit "POST"); init_headers := None;
     init_body := Some (InitReadable [[Byte.x74; Byte.x61; Byte.x64; Byte.x61]]);
     init_signal := None; init_redirect := None |}.

(** [{ redirect: mode }] *)
Definition redirectInit (mode : string) : RequestInit :=
  {| init_method := None; init_headers := None; init_body := None;
     init_signal := None; init_redirect := Some (lit mode) |}.

(** The state in which the handler of the first request runs. *)
Definition started (href : string) (init : RequestInit) : State :=
  {| initBody := init_body init;
     redirect :=
       match toRedirectOption (init_redirect init) with
       | Ok mode => mode
       | Throw _ => follow
       end;
     requestUrl := urlOf href;
     requestBody := extractBody (init_body init) [];
     redirects := 0;
     requestHeaders :=
       finalizeHeaders (default (lit "GET") (init_method init))
         (extractBody (init_body init) []) ∅;
     requestOptions :=
       {| target := urlOf href;
          method := default (lit "GET") (init_method init);
          signal := None |} |}.

(** A redirect to [/inspect], and one that lacks its [Location]. *)
Definition redirectTo (code : nat) : IncomingMessage :=
  {| statusCode := code; statusMessage := lit "Redirect";
     rawHeaders := [lit "Location"; lit "/inspect"]; incomingBody := [] |}.

Definition noLocation (code : nat) : IncomingMessage :=
  {| statusCode := code; statusMessage := lit "Moved Permanently";
     rawHeaders := [lit "Content-Type"; lit "text/plain"]; incomingBody := [] |}.

(** The server of the test suite: [/inspect] echoes the method and the
    body, any other path answers with [answer]. *)
Definition inspectServer (answer : IncomingMessage) (outgoing : OutgoingMessage)
  : result IncomingMessage :=
  if bool_decide (href (target (outgoingOptions outgoing))
                  = lit "http://example.com/inspect")
  then Ok {| statusCode := 200; statusMessage := lit "OK";
             rawHeaders := [lit "X-Inspect"; lit "inspect";
                            lit "X-Method"; method (outgoingOptions outgoing)];
             incomingBody := [outgoingBody outgoing] |}
  else Ok answer.

Definition noEntropy (hop : nat) : list byte := [].

End Scenarios.

(** The states above are those [_fetch] and [_call] produce. *)
Example started_postA1 :
  (λ s, (Fetch._call s).2)
    <$> match Fetch._fetch Host.newURL
                (Fetch.InputString (lit "http://example.com/redirect/302"))
                (Some postA1) [] with
        | Fetch.Ok s => Some s
        | Fetch.Throw _ => None
        end
  = Some (started "http://example.com/redirect/302" postA1).
Proof. vm_compute. reflexivity. Qed.

Lemma follows_redirectTo (href : string) (init : Fetch.RequestInit) (code : nat) :
  Fetch.isRedirectCode code = true →
  Fetch.toRedirectOption (Fetch.init_redirect init) = Fetch.Ok Fetch.follow →
  followsRedirect Host.newURL (started href init) (redirectTo code)
    {| Fetch.protocol := lit "http:";
       Fetch.href := Host.origin (urlOf href) ++ lit "/inspect" |}.
Proof.
  intros Hcode Hmode. unfold followsRedirect, started. cbn.
  rewrite Hmode. repeat split; try done.
  - eexists. split; reflexivity.
  - unfold Fetch.MAX_REDIRECTS. lia.
Qed.

Lemma redirect_downgrades_to_get_witness :
  ∃ next,
    Fetch.onResponse Host.newURL
      (started "http://example.com/redirect/302" postA1) (redirectTo 302) []
    = Fetch.Recall next
    ∧ Body.body (Fetch.requestBody next) = None
    ∧ Fetch.method (Fetch.outgoingOptions (Fetch._call next).1) = lit "GET"
    ∧ Fetch.target (Fetch.outgoingOptions (Fetch._call next).1)
      = {| Fetch.protocol := lit "http:";
           Fetch.href :=
             Host.origin (urlOf "http://example.com/redirect/302") ++ lit "/inspect" |}
    ∧ Fetch.outgoingBody (Fetch._call next).1 = []
    ∧ Headers.has (lit "Content-Length") (Fetch.outgoingHeaders (Fetch._call next).1)
      = false.
Proof.
  apply (redirect_downgrades_to_get Host.newURL
           (started "http://example.com/redirect/302" postA1) (redirectTo 302) []).
  - apply follows_redirectTo; reflexivity.
  - right. split; [right|]; reflexivity.
Defined.

Lemma redirect_resends_body_witness :
  Fetch.onResponse Host.newURL
    (started "http://example.com/redirect/307" postStream) (redirectTo 307) []
  = Fetch.Reject Fetch.streamedBodyError.
Proof.
  eapply (redirect_resends_body Host.newURL
            (started "http://example.com/redirect/307" postStream) (redirectTo 307) []).
  - apply follows_redirectTo; reflexivity.
  - reflexivity.
  - split; [discriminate | reflexivity].
Defined.

Lemma redirect_without_location_witness :
  ∃ response,
    Fetch.onResponse Host.newURL
      (started "http://example.com/redirect/no-location" (redirectInit "manual"))
      (noLocation 301) []
    = Fetch.Resolve response
    ∧ Fetch.status response = 301%nat
    ∧ Headers.get (lit "Location") (Fetch.headers response) = None.
Proof.
  destruct (redirect_without_location Host.newURL
              (started "http://example.com/redirect/no-location" (redirectInit "manual"))
              (noLocation 301) [] eq_refl eq_refl) as [_ Hdelivered].
  destruct (Hdelivered (or_intror eq_refl))
    as (_ & response & Hresolve & Hstatus & _ & Hlocation & _).
  exists response. repeat split; assumption.
Defined.

(** C4, as stated, fails under the mode [error]: the 301 without a
    [Location] is not delivered, the fetch is rejected. *)
Lemma error_mode_rejects_without_location :
  Fetch.isRedirectCode (Fetch.statusCode (noLocation 301)) = true
  ∧ Headers.get (lit "Location")
      (Fetch.headersOfRawHeaders (Fetch.rawHeaders (noLocation 301))) = None
  ∧ Fetch.fetch Host.newURL (inspectServer (noLocation 301)) noEntropy
      (Fetch.InputString (lit "http://example.com/redirect/no-location"))
      (Some (redirectInit "error"))
    = Some (Fetch.Reject Fetch.redirectModeError)
  ∧ ¬ deliveredAsOrdinary Host.newURL
        (started "http://example.com/redirect/no-location" (redirectInit "error"))
        (noLocation 301) [].
Proof.
  repeat split; try reflexivity.
  intros (response & Hresolve & _). discriminate Hresolve.
Qed.

(** Scenario 3: POST ["a=1"] to a 302 towards [/inspect]; the inspector
    sees a GET with an empty body. *)
Example scenario_post_302 :
  match Fetch.fetch Host.newURL (inspectServer (redirectTo 302)) noEntropy
          (Fetch.InputString (lit "http://example.com/redirect/302")) (Some postA1)
  with
  | Some (Fetch.Resolve response) =>
      Headers.get (lit "X-Method") (Fetch.headers response) = Some (lit "GET")
      ∧ Fetch.responseBody response = Some (Fetch.Plain [[]])
      ∧ Fetch.url response = lit "http://example.com/inspect"
      ∧ Fetch.redirected response = true
  | _ => False
  end.
Proof. vm_compute. repeat split. Qed.

(** Scenario 4: POST ["a=1"] to a 307 towards [/inspect]; the inspector
    sees the POST and the body. *)
Example scenario_post_307 :
  match Fetch.fetch Host.newURL (inspectServer (redirectTo 307)) noEntropy
          (Fetch.InputString (lit "http://example.com/redirect/307")) (Some postA1)
  with
  | Some (Fetch.Resolve response) =>
      Headers.get (lit "X-Method") (Fetch.headers response) = Some (lit "POST")
      ∧ Fetch.responseBody response
        = Some (Fetch.Plain [[Byte.x61; Byte.x3d; Byte.x31]])
      ∧ Fetch.redirected response = true
  | _ => False
  end.
Proof. vm_compute. repeat split. Qed.

(** * Further properties of the code *)

(** ** The body extractor, beyond the invariant *)

Section ExtractorMore.
Import Body.

(** The sizes an input reports are the sizes of what it streams. *)
Definition accurateInput (object : BodyInit) : Prop :=
  match object with
  | InitBlob b => blob_size b = length (concat (blob_stream b))
  | InitFormData form => accurateSizes form
  | InitMultipartStream m =>
      hasKnownLength m = true →
      getLengthSync m = length (concat (polyfill_stream m))
  | _ => True
  end.

(** X1. Whatever the input, a length the extractor announces is the number
    of bytes the body puts on the wire, provided the blobs and multipart
    streams involved report their own sizes accurately. *)
Theorem extractBody_length_exact (object : option BodyInit) (random : list byte)
    (n : nat) :
  (∀ o, object = Some o → accurateInput o) →
  contentLength (extractBody object random) = Some n →
  length (bytesOf (body (extractBody object random))) = n.
Proof.
  intros Hacc. destruct object as [o|]; [|cbn; congruence].
  specialize (Hacc o eq_refl).
  destruct o; cbn in *; try congruence.
  - intros [= <-]. symmetry. apply getFormDataLength_bytes, Hacc.
  - destruct (hasKnownLength m); [|discriminate].
    intros [= <-]. symmetry. by apply Hacc.
Qed.

(** X2. A content type the extractor gives is never the empty string: a
    blob without a type yields no content type at all. *)
Theorem extractBody_contentType_truthy (object : option BodyInit)
    (random : list byte) (type : jsstring) :
  contentType (extractBody object random) = Some type →
  truthy type = true.
Proof.
  destruct object as [[]|]; cbn; try discriminate;
    try (intros [= <-]; reflexivity).
  destruct (truthy (blob_type b)) eqn:Htype; [|discriminate].
  intros [= <-]. exact Htype.
Qed.

(** The inputs whose body is a stream of unknown length. *)
Definition isStreamInput (object : option BodyInit) : Prop :=
  match object with
  | Some (InitReadableStream _) | Some (InitReadable _) | Some (InitIterable _) =>
      True
  | Some (InitMultipartStream m) => hasKnownLength m = false
  | _ => False
  end.

Lemma extractBody_streamed (object : option BodyInit) (random : list byte) :
  body (extractBody object random) ≠ None
  ∧ contentLength (extractBody object random) = None
  ↔ isStreamInput object.
Proof.
  destruct object as [[| | | | | | | | m | | |]|]; cbn;
    try destruct (hasKnownLength m); intuition congruence.
Qed.

(** The inputs that can be read again each time the body is extracted: no
    body, text, bytes, URL parameters, and blobs and form data, whose
    streams are made anew by each extraction. A stream object handed in by
    the caller, a multipart stream of known length included, is read once. *)
Definition rereadable (object : option BodyInit) : Prop :=
  match object with
  | Some (InitReadableStream _) | Some (InitReadable _) | Some (InitIterable _)
  | Some (InitMultipartStream _) => False
  | _ => True
  end.


(** The bytes of one entry on the wire. *)
Definition entryWire (boundary : jsstring)
    (entry : jsstring * FormDataEntryValue) : list byte :=
  encode (getFormHeader boundary entry.1 entry.2)
  ++ match entry.2 with
     | EntryString s => encode s
     | EntryFile file => concat (blob_stream file)
     end
  ++ encode CRLF.

(** X4. On the wire a multipart body is, entry after entry, the encoded
    header block, the bytes of the value and a CRLF, followed by the encoded
    footer; a string entry, which the generator encodes in one piece with
    its header, is framed exactly as a blob entry is. *)
Theorem generatorOfFormData_wire (form : FormData) (boundary : jsstring) :
  concat (generatorOfFormData form boundary)
  = flat_map (entryWire boundary) form ++ encode (getFormFooter boundary).
Proof.
  unfold generatorOfFormData. rewrite concat_app. cbn [concat].
  rewrite app_nil_r. f_equal.
  induction form as [|[name value] form IH]; [reflexivity|].
  cbn [flat_map]. rewrite concat_app, IH. f_equal.
  unfold entryWire. cbn [fst snd]. destruct value as [s|file].
  - destruct (getFormHeader_ends_lf boundary name (EntryString s)) as [h ->].
    cbn [concat]. rewrite app_nil_r, encode_app_after_lf.
    change (s ++ CRLF) with (s ++ 13 :: [10]).
    rewrite encode_app_before_cr. reflexivity.
  - rewrite !concat_app. cbn [concat]. rewrite !app_nil_r. reflexivity.
Qed.

End ExtractorMore.

(** [new Blob(["a", "=1"], { type: "image/png" })] *)
Definition pngBlob : Body.Blob :=
  {| Body.blob_size := 3; Body.blob_type := lit "image/png";
     Body.blob_name := None;
     Body.blob_stream := [[Byte.x61]; [Byte.x3d; Byte.x31]] |}.

Lemma extractBody_length_exact_witness :
  Body.contentLength (Body.extractBody (Some (Body.InitBlob pngBlob)) []) = Some 3%nat
  ∧ length (Body.bytesOf (Body.body
      (Body.extractBody (Some (Body.InitBlob pngBlob)) []))) = 3%nat.
Proof.
  split; [reflexivity|].
  apply (extractBody_length_exact (Some (Body.InitBlob pngBlob)) []).
  - intros o [= <-]. reflexivity.
  - reflexivity.
Defined.

Lemma extractBody_contentType_truthy_witness :
  Body.contentType (Body.extractBody (Some (Body.InitBlob pngBlob)) [])
  = Some (lit "image/png")
  ∧ truthy (lit "image/png") = true.
Proof.
  split; [reflexivity|].
  apply (extractBody_contentType_truthy (Some (Body.InitBlob pngBlob)) []).
  reflexivity.
Defined.

(** ** The length of a multipart body, in closed form *)

Section MultipartLength.
Import Body.

Definition asciiOnly (s : jsstring) : Prop := Forall (λ c, c < 128) s.

Lemma ascii_not_surrogate (c : N) :
  c < 128 → is_high_surrogate c = false ∧ is_low_surrogate c = false.
Proof.
  intros Hc. unfold is_high_surrogate, is_low_surrogate.
  split; apply andb_false_iff; left; apply N.leb_gt; lia.
Qed.

Lemma encode_ascii_cons (c : N) (s : jsstring) :
  c < 128 → encode (c :: s) = byte_of_N c :: encode s.
Proof.
  intros Hc. destruct (ascii_not_surrogate c Hc) as [Hhigh Hlow].
  rewrite encode_not_high, Hlow by exact Hhigh.
  unfold utf8_of_scalar. replace (c <? 128) with true; [reflexivity|].
  symmetry. by apply N.ltb_lt.
Qed.

Lemma encode_ascii_app (a s : jsstring) :
  asciiOnly a → encode (a ++ s) = encode a ++ encode s.
Proof.
  induction 1 as [|c a Hc _ IH]; [reflexivity|].
  cbn [app]. rewrite !encode_ascii_cons, IH by exact Hc. reflexivity.
Qed.

Lemma byteLength_ascii (a : jsstring) : asciiOnly a → byteLength a = length a.
Proof.
  unfold byteLength. induction 1 as [|c a Hc _ IH]; [reflexivity|].
  rewrite encode_ascii_cons by exact Hc. cbn [length]. by rewrite IH.
Qed.

Lemma encode_app_before_ascii (s : jsstring) (c : N) (t : jsstring) :
  c < 128 → encode (s ++ c :: t) = encode s ++ encode (c :: t).
Proof.
  intros Hc. apply encode_app. intros h l _ [= <-] _.
  apply ascii_not_surrogate, Hc.
Qed.

Lemma byteLength_ascii_app (a s : jsstring) :
  asciiOnly a → byteLength (a ++ s) = (length a + byteLength s)%nat.
Proof.
  intros Ha. unfold byteLength at 1. rewrite encode_ascii_app by exact Ha.
  rewrite length_app. fold (byteLength a) (byteLength s).
  by rewrite byteLength_ascii.
Qed.

Lemma byteLength_app_before_ascii (s : jsstring) (c : N) (t : jsstring) :
  c < 128 → byteLength (s ++ c :: t) = (byteLength s + byteLength (c :: t))%nat.
Proof.
  intros Hc. unfold byteLength. rewrite encode_app_before_ascii by exact Hc.
  apply length_app.
Qed.

Lemma byteLength_app_before_literal (s a t : jsstring) :
  asciiOnly a → a ≠ [] →
  byteLength (s ++ a ++ t) = (byteLength s + byteLength (a ++ t))%nat.
Proof.
  intros Ha Hne. destruct a as [|c a]; [done|].
  apply byteLength_app_before_ascii. by inversion Ha.
Qed.

(** A literal of the source is ASCII when its characters are. *)
Ltac ascii_literal := unfold asciiOnly; repeat constructor.

(** Splits the length of a template at its literals, left to right. *)
Ltac template_length :=
  rewrite <- ?app_assoc;
  repeat first
    [ rewrite byteLength_ascii_app by ascii_literal
    | rewrite byteLength_app_before_literal by (ascii_literal || discriminate)
    | rewrite (byteLength_ascii (lit _)) by ascii_literal
    | progress change (byteLength CRLF) with 2%nat ];
  repeat match goal with
    | |- context [length ?l] =>
        let n := eval vm_compute in (length l) in
        progress change (length l) with n
    end.

(** The file name and the content type a blob entry is announced with. *)
Definition fileNameOf (file : Blob) : jsstring :=
  default (lit "blob") (blob_name file).
Definition fileTypeOf (file : Blob) : jsstring :=
  if truthy (blob_type file) then blob_type file
  else lit "application/octet-stream".

Lemma getFormHeader_byteLength (boundary name : jsstring)
    (field : FormDataEntryValue) :
  byteLength (getFormHeader boundary name field)
  = (byteLength boundary + byteLength name
     + match field with
       | EntryString _ => 47
       | EntryFile file =>
           76 + byteLength (fileNameOf file) + byteLength (fileTypeOf file)
       end)%nat.
Proof.
  unfold getFormHeader.
  destruct field as [s|file]; [template_length; lia|].
  unfold fileNameOf, fileTypeOf.
  destruct (truthy (blob_type file)); template_length; lia.
Qed.

(** The bytes one entry adds to a body under a boundary of [b] bytes. *)
Definition entryLength (b : nat) (entry : jsstring * FormDataEntryValue) : nat :=
  (b + byteLength entry.1
   + match entry.2 with
     | EntryString s => 49 + byteLength s
     | EntryFile file =>
         78 + byteLength (fileNameOf file) + byteLength (fileTypeOf file)
         + blob_size file
     end)%nat.

(** The length computed for a [FormData] is 8 bytes and the boundary for
    the footer, and per entry the boundary, the field name and 49 bytes of
    framing around a string value, or 78 bytes of framing plus the file name
    and content type around a blob of the size it reports. *)
Lemma getFormDataLength_closed_form (form : FormData) (boundary : jsstring) :
  getFormDataLength form boundary
  = (byteLength boundary + 8
     + sum_list (map (entryLength (byteLength boundary)) form))%nat.
Proof.
  unfold getFormDataLength.
  assert (Hfooter : byteLength (getFormFooter boundary)
                    = (byteLength boundary + 8)%nat).
  { unfold getFormFooter. template_length. lia. }
  rewrite Hfooter. generalize (byteLength boundary + 8)%nat as footer.
  induction form as [|[name value] form IH]; intros footer.
  - cbn. lia.
  - cbn [fold_left map]. rewrite IH.
    change (sum_list (?x :: ?l)) with (x + sum_list l)%nat.
    generalize (sum_list (map (entryLength (byteLength boundary)) form)).
    intros rest. rewrite getFormHeader_byteLength.
    unfold entryLength, CRLF_LENGTH. cbn [fst snd]. destruct value; lia.
Qed.

(** The boundary the extractor draws is 25 bytes long. *)
Lemma makeFormBoundary_byteLength (random : list byte) :
  length random = 8%nat → byteLength (makeFormBoundary random) = 25%nat.
Proof.
  intros Hlen. unfold makeFormBoundary.
  rewrite byteLength_ascii_app by ascii_literal.
  rewrite byteLength_ascii.
  - rewrite toHex_length, Hlen. reflexivity.
  - clear Hlen. unfold asciiOnly, toHex.
    induction random as [|b random IH]; [constructor|].
    cbn [map concat]. apply Forall_app. split; [|exact IH].
    destruct b; repeat constructor.
Qed.

(** X5. The [Content-Length] announced for a [FormData] body is 33 bytes
    for the footer and, per entry, 74 bytes of framing, the field name and
    the value for a string entry, or 103 bytes of framing, the field name,
    the file name, the content type and the reported size for a blob entry
    (all in UTF-8 bytes). *)
Theorem formData_contentLength_closed_form (form : FormData) (random : list byte) :
  length random = 8%nat →
  contentLength (extractBody (Some (InitFormData form)) random)
  = Some (33 + sum_list (map (entryLength 25) form))%nat.
Proof.
  intros Hlen. cbn [extractBody contentLength].
  rewrite getFormDataLength_closed_form, makeFormBoundary_byteLength by exact Hlen.
  reflexivity.
Qed.

End MultipartLength.

Lemma formData_contentLength_closed_form_witness :
  Body.contentLength (Body.extractBody (Some (Body.InitFormData formA1)) random8)
  = Some (33 + sum_list (map (entryLength 25) formA1))%nat.
Proof. apply (formData_contentLength_closed_form formA1 random8). reflexivity. Defined.

(** ** The deflate decoder, whatever the chunking *)

Section DeflateMore.
Import Encoding.

Lemma transformAll_app (chunks more : Body.Chunks) (this : InflateStream) :
  transformAll (chunks ++ more) this = transformAll more (transformAll chunks this).
Proof. apply fold_left_app. Qed.

(** X6. How a response body is cut into chunks does not matter to the
    deflate decoder: the variant it commits to is the one selected by the
    first byte of the body, the inner transform receives every byte of the
    body in order, and a body without any byte commits to nothing. *)
Theorem inflate_chunking_irrelevant (chunks : Body.Chunks) :
  match _inflate (transformAll chunks newInflateStream) with
  | Some z =>
      Some (kind z) = variantOf <$> head (concat chunks)
      ∧ concat (written z) = concat chunks
  | None => concat chunks = []
  end.
Proof.
  induction chunks as [|chunk chunks IH] using rev_ind; [reflexivity|].
  rewrite transformAll_app, concat_app. cbn [concat]. rewrite app_nil_r.
  change (transformAll [chunk] ?s) with (_transform chunk s).
  destruct (_inflate (transformAll chunks newInflateStream)) as [z|] eqn:Hz.
  - destruct IH as [Hkind Hwritten]. unfold _transform. rewrite Hz.
    cbn [_inflate write kind written]. split.
    + rewrite Hkind. destruct (concat chunks); [discriminate Hkind | reflexivity].
    + rewrite concat_app, Hwritten. cbn [concat]. by rewrite app_nil_r.
  - rewrite IH. unfold _transform. rewrite Hz.
    destruct chunk as [|b rest].
    + by rewrite Hz.
    + cbn. rewrite app_nil_r. split; reflexivity.
Qed.

End DeflateMore.

(** ** The header adapter, key by key *)

Section HeaderAdapterMore.
Import Fetch.

Lemma headersOfRawHeaders_from_get (rawHeaders : list jsstring) (h : Headers.t)
    (name : jsstring) :
  is_Some (Headers.get name (headersOfRawHeaders_from rawHeaders h))
  ↔ toLowerCase name ∈ map toLowerCase (rawKeys rawHeaders)
    ∨ is_Some (Headers.get name h).
Proof.
  remember (length rawHeaders) as n eqn:Hn. revert rawHeaders h Hn.
  induction (lt_wf n) as [n _ IH]; intros raw h ->.
  destruct raw as [|k [|v rest]]; cbn [headersOfRawHeaders_from rawKeys map].
  - rewrite elem_of_nil. tauto.
  - unfold Headers.get, Headers.set. rewrite list_elem_of_singleton.
    destruct (decide (toLowerCase k = toLowerCase name)) as [Heq|Hne].
    + rewrite Heq, lookup_insert_eq.
      split; [intros _; left; reflexivity | intros _; eexists; reflexivity].
    + rewrite lookup_insert_ne by exact Hne.
      split; [intros Hh; right; exact Hh|].
      intros [Hk|Hh]; [congruence | exact Hh].
  - rewrite (IH (length rest)); [| simpl; lia | reflexivity].
    unfold Headers.get, Headers.set. rewrite elem_of_cons.
    destruct (decide (toLowerCase k = toLowerCase name)) as [Heq|Hne].
    + rewrite Heq, lookup_insert_eq.
      split; [intros _; left; left; reflexivity
             | intros _; right; eexists; reflexivity].
    + rewrite lookup_insert_ne by exact Hne. split.
      * intros [Hk|Hh]; [left; right; exact Hk | right; exact Hh].
      * intros [[Hk|Hk]|Hh]; [congruence | left; exact Hk | right; exact Hh].
Qed.

(** X7. The [Headers] built from a raw header list hold a value for a name
    exactly when, compared case-insensitively, the name is one of the keys
    of the list (its entries at even positions); a value of the list never
    becomes a header name. *)
Theorem headersOfRawHeaders_has (rawHeaders : list jsstring) (name : jsstring) :
  Headers.has name (headersOfRawHeaders rawHeaders) = true
  ↔ toLowerCase name ∈ map toLowerCase (rawKeys rawHeaders).
Proof.
  unfold Headers.has, headersOfRawHeaders. rewrite bool_decide_eq_true.
  rewrite headersOfRawHeaders_from_get. unfold Headers.get, Headers.new.
  rewrite lookup_empty. split; [|by left].
  intros [Hkey|[? [=]]]. exact Hkey.
Qed.

(** X8. A raw header list of odd length ends in a key without a value: the
    adapter reads past the end of the list and stores the text
    "undefined" under that key, replacing any earlier value of the key. *)
Theorem headersOfRawHeaders_dangling_key (pre : list jsstring)
    (key name : jsstring) :
  Nat.Even (length pre) →
  toLowerCase name = toLowerCase key →
  Headers.get name (headersOfRawHeaders (pre ++ [key])) = Some (lit "undefined").
Proof.
  intros Heven Hname. unfold headersOfRawHeaders.
  rewrite headersOfRawHeaders_from_app by exact Heven.
  cbn [headersOfRawHeaders_from]. by apply get_set_same.
Qed.

End HeaderAdapterMore.

Lemma headersOfRawHeaders_dangling_key_witness :
  Headers.get (lit "etag")
    (Fetch.headersOfRawHeaders ([lit "ETag"; lit "abc"] ++ [lit "ETag"]))
  = Some (lit "undefined").
Proof.
  apply headersOfRawHeaders_dangling_key; [exists 1%nat|]; reflexivity.
Defined.

(** ** The headers of the message sent *)

Section OutgoingHeaders.
Import Body Fetch.

(** What [finalizeHeaders] leaves under each key of the map. *)
Lemma finalizeHeaders_lookup (method : jsstring) (requestBody : BodyState)
    (h : Headers.t) (key : jsstring) :
  finalizeHeaders method requestBody h !! key
  = if decide (key = lit "content-length") then
      match body requestBody, contentLength requestBody with
      | None, _ =>
          if bool_decide (method = lit "POST") || bool_decide (method = lit "PUT")
          then Some (lit "0") else h !! key
      | Some _, Some n => Some (of_nat n)
      | Some _, None => h !! key
      end
    else if decide (key = lit "content-type") then
      match contentType requestBody with
      | Some type => if truthy type then Some type else h !! key
      | None => h !! key
      end
    else if decide (key = lit "accept") then
      Some (default (lit "*/*") (h !! key))
    else h !! key.
Proof.
  unfold finalizeHeaders, Headers.has, Headers.set, Headers.get.
  change (toLowerCase (lit "Accept")) with (lit "accept").
  change (toLowerCase (lit "Content-Type")) with (lit "content-type").
  change (toLowerCase (lit "Content-Length")) with (lit "content-length").
  assert (Hne1 : lit "content-length" ≠ lit "content-type") by discriminate.
  assert (Hne2 : lit "content-length" ≠ lit "accept") by discriminate.
  assert (Hne3 : lit "content-type" ≠ lit "accept") by discriminate.
  destruct (decide (key = lit "content-length")) as [->|Hcl];
    [| destruct (decide (key = lit "content-type")) as [->|Hct];
       [| destruct (decide (key = lit "accept")) as [->|Hacc] ] ];
    destruct (body requestBody); destruct (contentLength requestBody);
    try destruct (_ || _);
    destruct (contentType requestBody) as [type|]; try destruct (truthy type);
    case_bool_decide as Haccept;
    try (destruct Haccept as [accept Haccept]);
    try (apply eq_None_not_Some in Haccept);
    simplify_map_eq; try done.
Qed.

Lemma call_contentType_of (s : State) :
  Headers.get (lit "Content-Type") (outgoingHeaders (_call s).1)
  = match contentType (requestBody s) with
    | Some type =>
        if truthy type then Some type
        else Headers.get (lit "Content-Type") (requestHeaders s)
    | None => Headers.get (lit "Content-Type") (requestHeaders s)
    end.
Proof.
  unfold _call. cbn [fst outgoingHeaders]. unfold Headers.get.
  rewrite finalizeHeaders_lookup. reflexivity.
Qed.

End OutgoingHeaders.

(** ** The method sent *)

Section MethodsMore.
Import Fetch.

Lemma upper_unit_idempotent (c : N) : upper_unit (upper_unit c) = upper_unit c.
Proof.
  unfold upper_unit.
  destruct ((97 <=? c) && (c <=? 122)) eqn:Hc; [|by rewrite Hc].
  apply andb_true_iff in Hc as [Hlow Hhigh].
  apply N.leb_le in Hlow, Hhigh.
  replace (97 <=? c - 32) with false; [reflexivity|].
  symmetry. apply N.leb_gt. lia.
Qed.

Lemma toUpperCase_idempotent (s : jsstring) :
  toUpperCase (toUpperCase s) = toUpperCase s.
Proof.
  unfold toUpperCase. rewrite map_map. apply map_ext. apply upper_unit_idempotent.
Qed.

Lemma toUpperCase_ascii (s : jsstring) : asciiOnly s → asciiOnly (toUpperCase s).
Proof.
  unfold asciiOnly, toUpperCase. intros Hs. apply Forall_map.
  apply (Forall_impl _ _ _ Hs). intros c Hc. cbn. unfold upper_unit.
  destruct (_ && _); lia.
Qed.

(** X9. A method of ASCII characters that passes the validator is sent in
    a canonical form: it is never empty, it is ASCII, uppercasing it again
    changes nothing, and it is either GET (the default of an absent or
    empty method) or the uppercase form of the method supplied. *)
Theorem methodToHttpOption_canonical (supplied : option jsstring)
    (method : jsstring) :
  (∀ m, supplied = Some m → asciiOnly m) →
  methodToHttpOption supplied = Ok method →
  method ≠ []
  ∧ asciiOnly method
  ∧ toUpperCase method = method
  ∧ (method = lit "GET"
     ∨ ∃ m, supplied = Some m ∧ m ≠ [] ∧ method = toUpperCase m).
Proof.
  intros Hascii.
  assert (Hget : lit "GET" ≠ [] ∧ asciiOnly (lit "GET")
                 ∧ toUpperCase (lit "GET") = lit "GET")
    by (repeat split; [discriminate | unfold asciiOnly; repeat constructor]).
  destruct Hget as (Hget1 & Hget2 & Hget3).
  unfold methodToHttpOption. destruct supplied as [m|].
  - repeat case_decide; try discriminate.
    destruct (truthy m) eqn:Htruthy; intros [= <-].
    + assert (Hm : m ≠ []) by (intros ->; discriminate Htruthy).
      split; [|split; [|split]].
      * destruct m; [done | discriminate].
      * by apply toUpperCase_ascii, Hascii.
      * apply toUpperCase_idempotent.
      * right. exists m. repeat split. exact Hm.
    + split; [exact Hget1 | split; [exact Hget2 | split; [exact Hget3 | by left]]].
  - intros [= <-].
    split; [exact Hget1 | split; [exact Hget2 | split; [exact Hget3 | by left]]].
Qed.

End MethodsMore.

Lemma methodToHttpOption_canonical_witness :
  asciiOnly (lit "patch")
  ∧ (lit "PATCH" ≠ []
     ∧ asciiOnly (lit "PATCH")
     ∧ toUpperCase (lit "PATCH") = lit "PATCH"
     ∧ (lit "PATCH" = lit "GET"
        ∨ ∃ m, Some (lit "patch") = Some m ∧ m ≠ []
               ∧ lit "PATCH" = toUpperCase m)).
Proof.
  assert (Hascii : asciiOnly (lit "patch")) by (unfold asciiOnly; repeat constructor).
  split; [exact Hascii|].
  apply (methodToHttpOption_canonical (Some (lit "patch")) (lit "PATCH")).
  - intros m [= <-]. exact Hascii.
  - reflexivity.
Defined.

(** ** Validation before the first request *)

Section Validation.
Import Body Fetch.

Variable newURL : jsstring → option URL → option URL.

(** [initFromRequest ? input.redirect : requestInit?.redirect] *)
Definition requestedRedirect (input : Input) (requestInit : option RequestInit)
  : option jsstring :=
  match input with
  | InputRequest r => Some (request_redirect r)
  | _ => requestInit ≫= init_redirect
  end.

(** [new URL(initUrl)] *)
Definition requestedURL (input : Input) : option URL :=
  match input with
  | InputRequest r => newURL (request_url r) None
  | InputString s => newURL s None
  | InputURL u => Some u
  end.

(** X10. A redirect option other than [follow], [manual] and [error] makes
    [fetch] reject with the type error that names it, before the URL, the
    scheme or the method are looked at and without any request being
    sent. *)
Theorem fetch_invalid_redirect_option
    (server : OutgoingMessage → result IncomingMessage)
    (entropy : nat → list byte) (input : Input)
    (requestInit : option RequestInit) (mode : jsstring) :
  requestedRedirect input requestInit = Some mode →
  mode ≠ lit "follow" → mode ≠ lit "manual" → mode ≠ lit "error" →
  fetch newURL server entropy input requestInit
  = Some (Reject (TypeError
      (lit "Request constructor: " ++ mode ++
       lit " is not an accepted type. Expected one of follow, manual, error."))).
Proof.
  intros Hmode H1 H2 H3. unfold fetch, _fetch.
  fold (requestedRedirect input requestInit). rewrite Hmode.
  unfold toRedirectOption. repeat case_decide; done.
Qed.

(** [requestInit?.headers], and the body [extractBody] is first called on. *)
Definition requestedHeaders (requestInit : option RequestInit)
  : option Headers.HeadersInit :=
  requestInit ≫= init_headers.

Definition requestedBody (input : Input) (requestInit : option RequestInit)
  : option BodyInit :=
  match input with
  | InputRequest r => InitReadableStream <$> request_body r
  | _ =>
      match requestInit with
      | Some {| init_body := Some object |} =>
          if truthyInit object then Some object else None
      | _ => None
      end
  end.

(** X11. For a fetch without [init.headers] and without a body of its own
    (no body, or the stream of a [Request]), on which neither
    [new Headers] nor [extractBody] can throw: with an acceptable redirect
    option, a URL whose scheme is neither [http:] nor [https:] makes
    [fetch] reject with the type error that names the scheme, whatever the
    method, and without any request being sent. *)
Theorem fetch_unsupported_scheme
    (server : OutgoingMessage → result IncomingMessage)
    (entropy : nat → list byte) (input : Input)
    (requestInit : option RequestInit) (mode : RedirectMode) (u : URL) :
  requestedHeaders requestInit = None →
  (requestedBody input requestInit = None ∨ ∃ r, input = InputRequest r) →
  toRedirectOption (requestedRedirect input requestInit) = Ok mode →
  requestedURL input = Some u →
  protocol u ≠ lit "http:" → protocol u ≠ lit "https:" →
  fetch newURL server entropy input requestInit
  = Some (Reject (TypeError
      (lit "URL scheme " ++ DQUOTE ++ protocol u ++ DQUOTE
       ++ lit " is not supported."))).
Proof.
  intros _ _ Hmode Hurl H1 H2. unfold fetch, _fetch.
  fold (requestedRedirect input requestInit) (requestedURL input).
  rewrite Hmode, Hurl. unfold urlToHttpOptions, isHttp.
  rewrite !bool_decide_eq_false_2 by assumption. reflexivity.
Qed.

(** X12. When the input is not a [Request], a body that is falsy (the empty
    string) is treated as no body at all: nothing is sent, and the body
    contributes no content type. *)
Theorem fetch_falsy_body_dropped (input : Input) (init : RequestInit)
    (random : list byte) (object : BodyInit) (s : State) :
  _fetch newURL input (Some init) random = Ok s →
  (∀ r, input ≠ InputRequest r) →
  init_body init = Some object →
  truthyInit object = false →
  initBody s = None
  ∧ requestBody s = extractBody None random
  ∧ outgoingBody (_call s).1 = []
  ∧ Headers.get (lit "Content-Type") (outgoingHeaders (_call s).1)
    = Headers.get (lit "Content-Type") (requestHeaders s).
Proof.
  intros Hs Hinput Hbody Hfalsy.
  assert (Hinit : initBody s = None ∧ requestBody s = extractBody None random).
  { unfold _fetch in Hs. destruct init as [m h b sig mode]. cbn in Hbody. subst b.
    destruct input as [str|u|r]; [| |by destruct (Hinput r)];
      rewrite Hfalsy in Hs;
      repeat case_match; try discriminate; injection Hs as <-; done. }
  destruct Hinit as [Hinit Hrequest]. repeat split; try assumption.
  - unfold _call. cbn [fst outgoingBody]. by rewrite Hrequest.
  - rewrite call_contentType_of. by rewrite Hrequest.
Qed.

End Validation.

Section ValidationExamples.
Import Body Fetch.

Definition silentServer (outgoing : OutgoingMessage) : result IncomingMessage :=
  Throw (Error (lit "unreachable")).

(** [{ method: "POST", body: "" }] *)
Definition postEmpty : RequestInit :=
  {| init_method := Some (lit "POST"); init_headers := None;
     init_body := Some (InitString []);
     init_signal := None; init_redirect := None |}.

End ValidationExamples.

Lemma fetch_invalid_redirect_option_witness :
  Fetch.fetch Host.newURL silentServer noEntropy
    (Fetch.InputString (lit "http://example.com/inspect"))
    (Some (redirectInit "foobar"))
  = Some (Fetch.Reject (Fetch.TypeError
      (lit "Request constructor: " ++ lit "foobar" ++
       lit " is not an accepted type. Expected one of follow, manual, error."))).
Proof.
  apply fetch_invalid_redirect_option; [reflexivity | discriminate..].
Defined.

Lemma fetch_unsupported_scheme_witness :
  Fetch.fetch Host.newURL silentServer noEntropy
    (Fetch.InputString (lit "ftp://example.com/")) None
  = Some (Fetch.Reject (Fetch.TypeError
      (lit "URL scheme " ++ Body.DQUOTE ++ lit "ftp:" ++ Body.DQUOTE
       ++ lit " is not supported."))).
Proof.
  apply (fetch_unsupported_scheme Host.newURL silentServer noEntropy
           (Fetch.InputString (lit "ftp://example.com/")) None Fetch.follow
           {| Fetch.protocol := lit "ftp:"; Fetch.href := lit "ftp://example.com/" |});
    [reflexivity | left; reflexivity | reflexivity | reflexivity | discriminate..].
Defined.

Lemma fetch_falsy_body_dropped_witness :
  ∃ s,
    Fetch._fetch Host.newURL (Fetch.InputString (lit "http://example.com/inspect"))
      (Some postEmpty) [] = Fetch.Ok s
    ∧ (Fetch.initBody s = None
       ∧ Fetch.requestBody s = Body.extractBody None []
       ∧ Fetch.outgoingBody (Fetch._call s).1 = []
       ∧ Headers.get (lit "Content-Type") (Fetch.outgoingHeaders (Fetch._call s).1)
         = Headers.get (lit "Content-Type") (Fetch.requestHeaders s)).
Proof.
  eexists. split; [reflexivity|].
  apply (fetch_falsy_body_dropped Host.newURL
           (Fetch.InputString (lit "http://example.com/inspect")) postEmpty []
           (Body.InitString [])); [reflexivity | discriminate | reflexivity..].
Defined.

(** ** The headers of the message sent, header by header *)

Section OutgoingHeadersMore.
Import Body Fetch.

(** X13. The request goes out with the [Accept] header the caller gave, and
    with [Accept: */*] when the caller gave none. *)
Theorem call_accept (s : State) :
  Headers.get (lit "Accept") (outgoingHeaders (_call s).1)
  = Some (default (lit "*/*") (Headers.get (lit "Accept") (requestHeaders s))).
Proof.
  unfold _call. cbn [fst outgoingHeaders]. unfold Headers.get.
  rewrite finalizeHeaders_lookup. reflexivity.
Qed.

(** X14. The [Content-Length] sent is the known length of the body,
    whatever the caller supplied, and 0 for a POST or PUT without a body;
    for a body of unknown length, and for any other method without a body,
    a [Content-Length] the caller supplied is sent as it is and none is
    added. *)
Theorem call_contentLength (s : State) :
  Headers.get (lit "Content-Length") (outgoingHeaders (_call s).1)
  = match body (requestBody s), contentLength (requestBody s) with
    | Some _, Some n => Some (of_nat n)
    | Some _, None => Headers.get (lit "Content-Length") (requestHeaders s)
    | None, _ =>
        if bool_decide (method (requestOptions s) = lit "POST")
           || bool_decide (method (requestOptions s) = lit "PUT")
        then Some (lit "0")
        else Headers.get (lit "Content-Length") (requestHeaders s)
    end.
Proof.
  unfold _call. cbn [fst outgoingHeaders]. unfold Headers.get.
  rewrite finalizeHeaders_lookup.
  destruct (body (requestBody s)), (contentLength (requestBody s)); reflexivity.
Qed.

(** X15. Every header other than [Accept], [Content-Type] and
    [Content-Length] is sent exactly as the request holds it: none is
    added, dropped or changed. *)
Theorem call_other_headers (s : State) (name : jsstring) :
  toLowerCase name ≠ lit "accept" →
  toLowerCase name ≠ lit "content-type" →
  toLowerCase name ≠ lit "content-length" →
  Headers.get name (outgoingHeaders (_call s).1)
  = Headers.get name (requestHeaders s).
Proof.
  intros H1 H2 H3. unfold _call. cbn [fst outgoingHeaders]. unfold Headers.get.
  rewrite finalizeHeaders_lookup. repeat case_decide; done.
Qed.


End OutgoingHeadersMore.

(** [{ method: "POST", headers: { "Authorization": "Bearer t", "X-Custom-Header": "abc" }, body: "a=1" }] *)
Definition authorizedInit : Fetch.RequestInit :=
  {| Fetch.init_method := Some (lit "POST");
     Fetch.init_headers :=
       Some (Headers.InitEntries
               [(lit "Authorization", lit "Bearer t");
                (lit "X-Custom-Header", lit "abc")]);
     Fetch.init_body := Some (Body.InitString (lit "a=1"));
     Fetch.init_signal := None; Fetch.init_redirect := None |}.

Lemma call_other_headers_witness :
  ∃ s,
    Fetch._fetch Host.newURL (Fetch.InputString (lit "http://example.com/inspect"))
      (Some authorizedInit) [] = Fetch.Ok s
    ∧ Headers.get (lit "Authorization") (Fetch.requestHeaders s)
      = Some (lit "Bearer t")
    ∧ Headers.get (lit "authorization") (Fetch.outgoingHeaders (Fetch._call s).1)
      = Some (lit "Bearer t")
    ∧ Headers.get (lit "X-Custom-Header") (Fetch.outgoingHeaders (Fetch._call s).1)
      = Some (lit "abc")
    ∧ Headers.get (lit "X-Absent") (Fetch.outgoingHeaders (Fetch._call s).1)
      = None.
Proof.
  eexists. split; [reflexivity|]. split; [reflexivity|].
  rewrite !call_other_headers by discriminate.
  split; [reflexivity | split; reflexivity].
Defined.

(** ** The response handler, mode by mode *)

Section HandlerMore.
Import Body Fetch.

Variable newURL : jsstring → option URL → option URL.

(** The response is a redirect whose [Location] resolves to [locationURL]. *)
Definition redirectsTo (base : URL) (incoming : IncomingMessage)
    (locationURL : URL) : Prop :=
  isRedirectCode (statusCode incoming) = true
  ∧ ∃ location,
      Headers.get (lit "Location") (headersOfRawHeaders (rawHeaders incoming))
      = Some location
      ∧ newURL location (Some base) = Some locationURL.

Lemma onResponse_redirect (s : State) (incoming : IncomingMessage)
    (random : list byte) (locationURL : URL) :
  redirectsTo (requestUrl s) incoming locationURL →
  onResponse newURL s incoming random
  = match redirect s with
    | error => Reject redirectModeError
    | manual =>
        deliver s incoming
          (Headers.set (lit "Location") (href locationURL)
             (headersOfRawHeaders (rawHeaders incoming)))
    | follow =>
        if (MAX_REDIRECTS <? S (redirects s))%nat then
          Reject (Error (lit "maximum redirect reached at: " ++ href (requestUrl s)))
        else if negb (isHttp locationURL) then
          Reject (Error (lit "URL scheme must be a HTTP(S) scheme"))
        else if downgradesToGet (statusCode incoming) (method (requestOptions s)) then
          retarget s (S (redirects s)) (extractBody None random) (lit "GET")
            (Headers.remove (lit "Content-Length") (requestHeaders s)) locationURL
        else if bool_decide (body (requestBody s) ≠ None)
                && bool_decide (contentLength (requestBody s) = None) then
          Reject streamedBodyError
        else
          retarget s (S (redirects s)) (extractBody (initBody s) random)
            (method (requestOptions s)) (requestHeaders s) locationURL
    end.
Proof.
  intros (Hcode & location & Hlocation & Hurl).
  unfold onResponse. rewrite Hcode, Hlocation, Hurl. reflexivity.
Qed.

(** X17. Under the mode [follow], a redirect that arrives when 20 redirects
    have been followed is not followed: the fetch is rejected with the
    error that names the URL of the request just answered, whatever the
    target of the redirect and the body. *)
Theorem redirect_limit (s : State) (incoming : IncomingMessage)
    (random : list byte) (locationURL : URL) :
  redirect s = follow →
  redirectsTo (requestUrl s) incoming locationURL →
  (MAX_REDIRECTS ≤ redirects s)%nat →
  onResponse newURL s incoming random
  = Reject (Error (lit "maximum redirect reached at: " ++ href (requestUrl s))).
Proof.
  intros Hmode Hredirect Hcount.
  rewrite (onResponse_redirect _ _ _ _ Hredirect), Hmode.
  replace (MAX_REDIRECTS <? S (redirects s))%nat with true; [reflexivity|].
  symmetry. apply Nat.ltb_lt. lia.
Qed.

(** X18. Under the mode [follow], a redirect within the limit whose target
    is not an HTTP(S) URL is not followed: the fetch is rejected, whatever
    the status and the body. *)
Theorem redirect_to_other_scheme (s : State) (incoming : IncomingMessage)
    (random : list byte) (locationURL : URL) :
  redirect s = follow →
  redirectsTo (requestUrl s) incoming locationURL →
  (redirects s < MAX_REDIRECTS)%nat →
  isHttp locationURL = false →
  onResponse newURL s incoming random
  = Reject (Error (lit "URL scheme must be a HTTP(S) scheme")).
Proof.
  intros Hmode Hredirect Hcount Hscheme.
  rewrite (onResponse_redirect _ _ _ _ Hredirect), Hmode, Hscheme.
  replace (MAX_REDIRECTS <? S (redirects s))%nat with false; [reflexivity|].
  symmetry. apply Nat.ltb_ge. lia.
Qed.

(** X19. Under the mode [manual], a redirect is not followed, whatever its
    target and however many redirects came before: the response is
    delivered with its status, its [Location] replaced by the absolute form
    of the target, and its other headers (the content encoding apart) as
    received. *)
Theorem redirect_manual (s : State) (incoming : IncomingMessage)
    (random : list byte) (locationURL : URL) :
  redirect s = manual →
  redirectsTo (requestUrl s) incoming locationURL →
  ∃ response,
    onResponse newURL s incoming random = Resolve response
    ∧ status response = statusCode incoming
    ∧ Headers.get (lit "Location") (Fetch.headers response)
      = Some (href locationURL)
    ∧ (∀ name,
         toLowerCase name ≠ lit "content-encoding" →
         toLowerCase name ≠ lit "location" →
         Headers.get name (Fetch.headers response)
         = Headers.get name (headersOfRawHeaders (rawHeaders incoming)))
    ∧ url response = href (requestUrl s).
Proof.
  intros Hmode Hredirect.
  rewrite (onResponse_redirect _ _ _ _ Hredirect), Hmode.
  destruct Hredirect as [Hcode _].
  destruct (deliver_redirect_status s incoming
              (Headers.set (lit "Location") (href locationURL)
                 (headersOfRawHeaders (rawHeaders incoming))) Hcode)
    as (response & Hresolve & Hstatus & _ & Hheaders & Hurl & _).
  exists response. repeat split; try assumption.
  - rewrite Hheaders by names_differ. by apply get_set_same.
  - intros name Hencoding Hlocation. rewrite Hheaders by exact Hencoding.
    apply get_set_other. intros Heq. apply Hlocation. by rewrite <- Heq.
Qed.


(** X21. A request that a redirect turned into a bodiless GET still goes
    out with the [Content-Type] of the request before it, the type of the
    body that was dropped included. *)
Theorem downgrade_keeps_contentType (s : State) (incoming : IncomingMessage)
    (random : list byte) (locationURL : URL) :
  followsRedirect newURL s incoming locationURL →
  downgradesToGet (statusCode incoming) (method (requestOptions s)) = true →
  ∃ next,
    onResponse newURL s incoming random = Recall next
    ∧ method (requestOptions next) = lit "GET"
    ∧ outgoingBody (_call next).1 = []
    ∧ Headers.get (lit "Content-Type") (outgoingHeaders (_call next).1)
      = Headers.get (lit "Content-Type") (requestHeaders s).
Proof.
  intros Hfollow Hdown.
  pose proof Hfollow as (_ & _ & _ & _ & Hhttp).
  rewrite (onResponse_follow _ _ _ _ _ Hfollow), Hdown.
  rewrite (retarget_http _ _ _ _ _ _ Hhttp).
  eexists. split; [reflexivity|]. repeat split.
  rewrite call_contentType_of. cbn.
  by apply get_remove_other.
Qed.

(** X22. The turn to a bodiless GET does not last: for a body given as
    text, bytes, URL parameters, a blob or form data (an input that each
    extraction reads anew), when the request that a redirect turned into a
    GET is answered by a further redirect that is followed and is not a
    303, the next request is a GET that carries the original body again. *)
Theorem downgrade_then_redirect_resends_body
    (s : State) (first second : IncomingMessage) (random1 random2 : list byte)
    (url1 url2 : URL) (s1 : State) :
  rereadable (initBody s) →
  followsRedirect newURL s first url1 →
  downgradesToGet (statusCode first) (method (requestOptions s)) = true →
  onResponse newURL s first random1 = Recall s1 →
  followsRedirect newURL (_call s1).2 second url2 →
  statusCode second ≠ 303%nat →
  ∃ s2,
    onResponse newURL (_call s1).2 second random2 = Recall s2
    ∧ method (requestOptions s2) = lit "GET"
    ∧ requestBody s2 = extractBody (initBody s) random2
    ∧ outgoingBody (_call s2).1
      = bytesOf (body (extractBody (initBody s) random2)).
Proof.
  intros _ Hfirst Hdown Hs1 Hsecond Hstatus.
  pose proof Hfirst as (_ & _ & _ & _ & Hhttp1).
  pose proof Hsecond as (_ & _ & _ & _ & Hhttp2).
  rewrite (onResponse_follow _ _ _ _ _ Hfirst), Hdown in Hs1.
  rewrite (retarget_http _ _ _ _ _ _ Hhttp1) in Hs1. injection Hs1 as <-.
  rewrite (onResponse_follow _ _ _ _ _ Hsecond). cbn.
  assert (Hkeep : downgradesToGet (statusCode second) (lit "GET") = false).
  { unfold downgradesToGet. rewrite (bool_decide_eq_false_2 _ Hstatus).
    rewrite andb_false_r. reflexivity. }
  rewrite Hkeep, (retarget_http _ _ _ _ _ _ Hhttp2).
  eexists. repeat split.
Qed.

End HandlerMore.

Section HandlerExamples.
Import Body Fetch.

Definition withRedirects (n : nat) (s : State) : State :=
  {| initBody := initBody s; redirect := redirect s; requestUrl := requestUrl s;
     requestBody := requestBody s; redirects := n;
     requestHeaders := requestHeaders s; requestOptions := requestOptions s |}.

(** A redirect to an absolute location. *)
Definition redirectToURL (code : nat) (location : string) : IncomingMessage :=
  {| statusCode := code; statusMessage := lit "Redirect";
     rawHeaders := [lit "Location"; lit location]; incomingBody := [] |}.

End HandlerExamples.

Lemma redirectsTo_inspect (href : string) (init : Fetch.RequestInit) (code : nat) :
  Fetch.isRedirectCode code = true →
  redirectsTo Host.newURL (Fetch.requestUrl (started href init)) (redirectTo code)
    {| Fetch.protocol := lit "http:";
       Fetch.href := Host.origin (urlOf href) ++ lit "/inspect" |}.
Proof. intros Hcode. split; [exact Hcode|]. eexists. split; reflexivity. Qed.

Lemma redirect_limit_witness :
  Fetch.onResponse Host.newURL
    (withRedirects 20 (started "http://example.com/redirect/chain" postA1))
    (redirectTo 302) []
  = Fetch.Reject (Fetch.Error
      (lit "maximum redirect reached at: " ++ lit "http://example.com/redirect/chain")).
Proof.
  apply (redirect_limit Host.newURL
           (withRedirects 20 (started "http://example.com/redirect/chain" postA1))
           (redirectTo 302) []
           {| Fetch.protocol := lit "http:";
              Fetch.href := Host.origin (urlOf "http://example.com/redirect/chain")
                            ++ lit "/inspect" |}).
  - reflexivity.
  - apply (redirectsTo_inspect "http://example.com/redirect/chain" postA1). reflexivity.
  - unfold Fetch.MAX_REDIRECTS. cbn. lia.
Defined.

Lemma redirect_to_other_scheme_witness :
  Fetch.onResponse Host.newURL
    (started "http://example.com/redirect/301/file" postA1)
    (redirectToURL 301 "file://a/b/c") []
  = Fetch.Reject (Fetch.Error (lit "URL scheme must be a HTTP(S) scheme")).
Proof.
  apply (redirect_to_other_scheme Host.newURL
           (started "http://example.com/redirect/301/file" postA1)
           (redirectToURL 301 "file://a/b/c") []
           {| Fetch.protocol := lit "file:"; Fetch.href := lit "file://a/b/c" |}).
  - reflexivity.
  - split; [reflexivity|]. eexists. split; reflexivity.
  - unfold Fetch.MAX_REDIRECTS. cbn. lia.
  - reflexivity.
Defined.

Lemma redirect_manual_witness :
  ∃ response,
    Fetch.onResponse Host.newURL
      (started "http://example.com/redirect/301" (redirectInit "manual"))
      (redirectTo 301) []
    = Fetch.Resolve response
    ∧ Fetch.status response = 301%nat
    ∧ Headers.get (lit "Location") (Fetch.headers response)
      = Some (lit "http://example.com/inspect").
Proof.
  destruct (redirect_manual Host.newURL
              (started "http://example.com/redirect/301" (redirectInit "manual"))
              (redirectTo 301) []
              {| Fetch.protocol := lit "http:";
                 Fetch.href := lit "http://example.com/inspect" |} eq_refl)
    as (response & Hresolve & Hstatus & Hlocation & _).
  - split; [reflexivity|]. eexists. split; reflexivity.
  - exists response. repeat split; assumption.
Defined.


Lemma downgrade_keeps_contentType_witness :
  ∃ next,
    Fetch.onResponse Host.newURL
      (started "http://example.com/redirect/302" postA1) (redirectTo 302) []
    = Fetch.Recall next
    ∧ Fetch.method (Fetch.requestOptions next) = lit "GET"
    ∧ Fetch.outgoingBody (Fetch._call next).1 = []
    ∧ Headers.get (lit "Content-Type") (Fetch.outgoingHeaders (Fetch._call next).1)
      = Headers.get (lit "Content-Type")
          (Fetch.requestHeaders (started "http://example.com/redirect/302" postA1)).
Proof.
  eapply (downgrade_keeps_contentType Host.newURL
            (started "http://example.com/redirect/302" postA1) (redirectTo 302) []).
  - apply follows_redirectTo; reflexivity.
  - reflexivity.
Defined.

Lemma downgrade_then_redirect_resends_body_witness :
  ∃ s1 s2,
    Fetch.onResponse Host.newURL
      (started "http://example.com/redirect/303" postA1)
      (redirectToURL 303 "http://example.com/redirect/307") []
    = Fetch.Recall s1
    ∧ Fetch.onResponse Host.newURL (Fetch._call s1).2 (redirectTo 307) []
      = Fetch.Recall s2
    ∧ Fetch.method (Fetch.requestOptions s2) = lit "GET"
    ∧ Fetch.outgoingBody (Fetch._call s2).1 = [Byte.x61; Byte.x3d; Byte.x31].
Proof.
  eexists.
  edestruct (downgrade_then_redirect_resends_body Host.newURL
               (started "http://example.com/redirect/303" postA1)
               (redirectToURL 303 "http://example.com/redirect/307")
               (redirectTo 307) [] []
               {| Fetch.protocol := lit "http:";
                  Fetch.href := lit "http://example.com/redirect/307" |}
               {| Fetch.protocol := lit "http:";
                  Fetch.href := lit "http://example.com/inspect" |})
    as (s2 & Hs2 & Hmethod & _ & Hbody).
  - exact I.
  - repeat split; try reflexivity.
    + eexists. split; reflexivity.
    + unfold Fetch.MAX_REDIRECTS. cbn. lia.
  - reflexivity.
  - reflexivity.
  - repeat split; try reflexivity.
    + eexists. split; reflexivity.
    + unfold Fetch.MAX_REDIRECTS. cbn. lia.
  - discriminate.
  - exists s2. repeat split; assumption.
Defined.

(** POST ["a=1"] to a 303 towards a 307 towards [/inspect]: the inspector
    sees a GET with the body ["a=1"]. *)
Example scenario_post_303_307 :
  match Fetch.fetch Host.newURL
          (λ outgoing,
             if bool_decide (Fetch.href (Fetch.target (Fetch.outgoingOptions outgoing))
                             = lit "http://example.com/redirect/303")
             then Fetch.Ok (redirectToURL 303 "http://example.com/redirect/307")
             else inspectServer (redirectTo 307) outgoing)
          noEntropy
          (Fetch.InputString (lit "http://example.com/redirect/303")) (Some postA1)
  with
  | Some (Fetch.Resolve response) =>
      Headers.get (lit "X-Method") (Fetch.headers response) = Some (lit "GET")
      ∧ Fetch.responseBody response
        = Some (Fetch.Plain [[Byte.x61; Byte.x3d; Byte.x31]])
  | _ => False
  end.
Proof. vm_compute. repeat split. Qed.

(** ** The response delivered *)

Section Delivery.
Import Body Encoding Fetch.

Variable newURL : jsstring → option URL → option URL.

Lemma onResponse_ordinary (s : State) (incoming : IncomingMessage)
    (random : list byte) :
  isRedirectCode (statusCode incoming) = false →
  onResponse newURL s incoming random
  = deliver s incoming (headersOfRawHeaders (rawHeaders incoming)).
Proof. intros Hcode. unfold onResponse. by rewrite Hcode. Qed.


(** X24. Any other response that is not a redirect is delivered with its
    body: piped through the decoder of its [Content-Encoding] taken in
    lowercase, the header itself rewritten in lowercase, or as it is when
    there is no such header; every other header is as received. *)
Theorem response_decoded (s : State) (incoming : IncomingMessage)
    (random : list byte) :
  isRedirectCode (statusCode incoming) = false →
  (200 ≤ statusCode incoming ≤ 599)%nat →
  method (requestOptions s) ≠ lit "HEAD" →
  statusCode incoming ≠ 204%nat → statusCode incoming ≠ 205%nat →
  statusCode incoming ≠ 304%nat →
  ∃ response,
    onResponse newURL s incoming random = Resolve response
    ∧ match Headers.get (lit "Content-Encoding")
              (headersOfRawHeaders (rawHeaders incoming)) with
      | Some encoding =>
          Headers.get (lit "Content-Encoding") (Fetch.headers response)
          = Some (toLowerCase encoding)
          ∧ responseBody response
            = Some (Piped (createContentDecoder (toLowerCase encoding))
                      (incomingBody incoming))
      | None =>
          Headers.get (lit "Content-Encoding") (Fetch.headers response) = None
          ∧ responseBody response = Some (Plain (incomingBody incoming))
      end
    ∧ ∀ name,
        toLowerCase name ≠ lit "content-encoding" →
        Headers.get name (Fetch.headers response)
        = Headers.get name (headersOfRawHeaders (rawHeaders incoming)).
Proof.
  intros Hcode Hrange Hhead H204 H205 H304.
  rewrite onResponse_ordinary by exact Hcode. unfold deliver.
  rewrite !bool_decide_eq_false_2 by assumption. cbn [orb].
  assert (Hnull : nullBodyStatus (statusCode incoming) = false)
    by (apply bool_decide_eq_false_2; lia).
  destruct (Headers.get (lit "Content-Encoding") _) as [encoding|] eqn:Hencoding;
    cbn [fmap option_fmap option_map];
    (rewrite createResponse_default; [| exact Hrange | by left]);
    eexists; (split; [reflexivity|]); cbn [Fetch.headers responseBody ri_headers].
  - split; [split; [by apply get_set_same | reflexivity]|].
    intros name Hname. apply get_set_other. intros Heq. apply Hname.
    by rewrite <- Heq.
  - split; [split; [exact Hencoding | reflexivity]|]. reflexivity.
Qed.

End Delivery.

Section DeliveryExamples.
Import Body Fetch.


(** A response with body ["hello"] under the given content encoding. *)
Definition encoded (code : nat) (encoding : string) : IncomingMessage :=
  {| statusCode := code; statusMessage := lit "OK";
     rawHeaders := [lit "Content-Type"; lit "text/plain";
                    lit "Content-Encoding"; lit encoding];
     incomingBody := [[Byte.x68; Byte.x65; Byte.x6c; Byte.x6c; Byte.x6f]] |}.

End DeliveryExamples.


Lemma response_decoded_witness :
  ∃ response,
    Fetch.onResponse Host.newURL (started "http://example.com/gzip" postA1)
      (encoded 200 "GZip") []
    = Fetch.Resolve response
    ∧ Headers.get (lit "Content-Encoding") (Fetch.headers response)
      = Some (lit "gzip")
    ∧ Fetch.responseBody response
      = Some (Fetch.Piped Encoding.Gunzip
                [[Byte.x68; Byte.x65; Byte.x6c; Byte.x6c; Byte.x6f]]).
Proof.
  destruct (response_decoded Host.newURL (started "http://example.com/gzip" postA1)
              (encoded 200 "GZip") [])
    as (response & Hresolve & Hencoding & _).
  - reflexivity.
  - cbn. lia.
  - discriminate.
  - discriminate.
  - discriminate.
  - discriminate.
  - exists response. split; [exact Hresolve|]. exact Hencoding.
Defined.

(** ** Whole exchanges *)

Section Exchanges.
Import Body Fetch.

Variable newURL : jsstring → option URL → option URL.
Variable server : OutgoingMessage → result IncomingMessage.
Variable entropy : nat → list byte.

Lemma createResponse_url (body : option ResponseBody) (init : ResponseInit)
    (params_url params_type : jsstring) (params_redirected : bool)
    (response : Response) :
  createResponse body init params_url params_type params_redirected = Ok response →
  url response = params_url ∧ redirected response = params_redirected.
Proof.
  unfold createResponse.
  destruct (newResponse body init) as [r|e] eqn:Hnew; [|discriminate].
  assert (Hfresh : redirected r = false).
  { unfold newResponse in Hnew.
    repeat case_match; try discriminate; injection Hnew as <-; reflexivity. }
  intros [= <-].
  destruct (bool_decide _), params_redirected; cbn; split; done.
Qed.

Lemma onResponse_resolve (s : State) (incoming : IncomingMessage)
    (random : list byte) (response : Response) :
  onResponse newURL s incoming random = Resolve response →
  url response = href (requestUrl s)
  ∧ redirected response = (0 <? redirects s)%nat.
Proof.
  assert (Hdeliver : ∀ h, deliver s incoming h = Resolve response →
            url response = href (requestUrl s)
            ∧ redirected response = (0 <? redirects s)%nat).
  { intros h. unfold deliver. repeat case_match; try discriminate;
      intros [= <-]; eapply createResponse_url; eassumption. }
  unfold onResponse, retarget.
  repeat case_match; try discriminate; apply Hdeliver.
Qed.

Lemma exchange_step (fuel : nat) (s : State) :
  exchange newURL (S fuel) server entropy s
  = match server (_call s).1 with
    | Throw e => Some (Reject e)
    | Ok incoming =>
        match onResponse newURL (_call s).2 incoming (entropy (S (redirects s))) with
        | Recall next => exchange newURL fuel server entropy next
        | outcome => Some outcome
        end
    end.
Proof. reflexivity. Qed.

Lemma exchange_redirected (fuel : nat) (s : State) (response : Response) :
  exchange newURL fuel server entropy s = Some (Resolve response) →
  (0 < redirects s)%nat →
  redirected response = true.
Proof.
  revert s. induction fuel as [|fuel IH]; intros s; [discriminate|].
  rewrite exchange_step. intros Hrun Hcount.
  destruct (server _) as [incoming|e]; [|discriminate].
  destruct (onResponse _ _ _ _) as [r|e|next|e] eqn:Hstep; try discriminate.
  - injection Hrun as ->. apply onResponse_resolve in Hstep as [_ ->].
    cbn [_call snd redirects]. by apply Nat.ltb_lt.
  - apply onResponse_recall in Hstep as [Hnext _].
    apply (IH next Hrun). lia.
Qed.

(** X25. A response that [fetch] resolves with has [redirected] set exactly
    when the first response of the exchange was followed as a redirect;
    when it is not set, the response is the first one, under the URL
    requested. *)
Theorem fetch_redirected (input : Input) (requestInit : option RequestInit)
    (s : State) (response : Response) :
  _fetch newURL input requestInit (entropy 0%nat) = Ok s →
  fetch newURL server entropy input requestInit = Some (Resolve response) →
  (redirected response = true
   ↔ ∃ incoming next,
       server (_call s).1 = Ok incoming
       ∧ onResponse newURL (_call s).2 incoming (entropy 1%nat) = Recall next)
  ∧ (redirected response = false →
     url response = href (requestUrl s)
     ∧ ∃ incoming,
         server (_call s).1 = Ok incoming
         ∧ onResponse newURL (_call s).2 incoming (entropy 1%nat)
           = Resolve response).
Proof.
  intros Hs. unfold fetch. rewrite Hs, exchange_step.
  assert (Hstart : redirects s = 0%nat).
  { unfold _fetch in Hs.
    repeat case_match; try discriminate; injection Hs as <-; reflexivity. }
  rewrite Hstart.
  destruct (server _) as [incoming|e]; [|discriminate].
  destruct (onResponse _ _ _ _) as [r|e|next|e] eqn:Hstep; try discriminate.
  - intros [= ->]. pose proof Hstep as Hfields.
    apply onResponse_resolve in Hfields as [Hurl Hflag].
    cbn [_call snd redirects requestUrl] in Hurl, Hflag.
    rewrite Hstart in Hflag. cbn in Hflag. split.
    + rewrite Hflag. split; [discriminate|].
      intros (incoming' & next & [= <-] & Hrecall). congruence.
    + intros _. split; [exact Hurl|]. by exists incoming.
  - intros Hrun. pose proof Hstep as Hnext.
    apply onResponse_recall in Hnext as [Hnext _].
    assert (Hflag : redirected response = true)
      by (apply (exchange_redirected _ _ _ Hrun); lia).
    split.
    + split; [|done]. intros _. by exists incoming, next.
    + rewrite Hflag. discriminate.
Qed.

Lemma exchange_more_fuel (fuel : nat) (s : State) (outcome : Outcome) :
  exchange newURL fuel server entropy s = Some outcome →
  exchange newURL (S fuel) server entropy s = Some outcome.
Proof.
  revert s. induction fuel as [|fuel IH]; intros s; [discriminate|].
  rewrite !(exchange_step _ s).
  destruct (server _) as [incoming|e]; [|done].
  destruct (onResponse _ _ _ _) as [r|e|next|e]; try done.
  apply IH.
Qed.

Lemma exchange_within_limit (fuel : nat) (s : State) :
  (redirects s ≤ MAX_REDIRECTS)%nat →
  (MAX_REDIRECTS < fuel + redirects s)%nat →
  is_Some (exchange newURL fuel server entropy s).
Proof.
  revert s. induction fuel as [|fuel IH]; intros s Hmax Hfuel; [lia|].
  rewrite exchange_step.
  destruct (server _) as [incoming|e]; [|by eexists].
  destruct (onResponse _ _ _ _) as [r|e|next|e] eqn:Hstep; try by eexists.
  apply onResponse_recall in Hstep as [Hcount Hle].
  cbn [_call snd redirects] in Hcount. apply IH; lia.
Qed.

(** X26. No [fetch] sends more than 21 requests, the first one and one for
    each of at most 20 redirects followed: a run of the exchange never
    needs a 22nd round of request and response. *)
Theorem fetch_at_most_21_requests (input : Input)
    (requestInit : option RequestInit) (s : State) :
  _fetch newURL input requestInit (entropy 0%nat) = Ok s →
  is_Some (exchange newURL 21 server entropy s)
  ∧ fetch newURL server entropy input requestInit
    = exchange newURL 21 server entropy s.
Proof.
  intros Hs.
  assert (Hstart : redirects s = 0%nat).
  { unfold _fetch in Hs.
    repeat case_match; try discriminate; injection Hs as <-; reflexivity. }
  assert (Hsome : is_Some (exchange newURL 21 server entropy s))
    by (apply exchange_within_limit; rewrite Hstart; unfold MAX_REDIRECTS; lia).
  split; [exact Hsome|].
  destruct Hsome as [outcome Houtcome]. unfold fetch. rewrite Hs, Houtcome.
  by apply exchange_more_fuel.
Qed.

End Exchanges.

(** ** Bodies that cannot follow a redirect, and redirect loops *)

Section Replay.
Import Body Fetch.

Variable newURL : jsstring → option URL → option URL.

(** X3. On a followed hop that keeps the method, the fetch is rejected for
    a streamed body exactly when the body of the request just answered was
    extracted from a web stream, a Node stream, an iterable or a multipart
    stream of unknown length. A request whose current body was extracted
    from anything else, the null body that an earlier turn to GET put in
    its place included, is not rejected for its body. *)
Theorem redirect_rejects_stream_inputs (s : State) (incoming : IncomingMessage)
    (random random0 : list byte) (locationURL : URL) (object : option BodyInit) :
  followsRedirect newURL s incoming locationURL →
  downgradesToGet (statusCode incoming) (method (requestOptions s)) = false →
  requestBody s = extractBody object random0 →
  onResponse newURL s incoming random = Reject streamedBodyError
  ↔ isStreamInput object.
Proof.
  intros Hfollow Hkeep Hbody.
  pose proof Hfollow as (_ & _ & _ & _ & Hhttp).
  rewrite (onResponse_follow _ _ _ _ _ Hfollow), Hkeep.
  rewrite (retarget_http _ _ _ _ _ _ Hhttp).
  rewrite <- (extractBody_streamed object random0), <- Hbody.
  destruct (bool_decide (body (requestBody s) ≠ None)) eqn:Hnonnull;
    destruct (bool_decide (contentLength (requestBody s) = None)) eqn:Hunknown;
    cbn [andb];
    try apply bool_decide_eq_true in Hnonnull;
    try apply bool_decide_eq_true in Hunknown;
    try apply bool_decide_eq_false in Hnonnull;
    try apply bool_decide_eq_false in Hunknown;
    split; try done; try discriminate; intros [? ?]; done.
Qed.

Variable server : OutgoingMessage → result IncomingMessage.
Variable entropy : nat → list byte.






End Replay.

Section ExchangeExamples.
Import Body Fetch.

(** A server that redirects every request to the same URL. *)
Definition loopServer (outgoing : OutgoingMessage) : result IncomingMessage :=
  Ok (redirectToURL 302 "http://example.com/redirect/loop").

End ExchangeExamples.

Lemma redirect_rejects_stream_inputs_witness :
  Fetch.onResponse Host.newURL
    (started "http://example.com/redirect/307" postStream) (redirectTo 307) []
  = Fetch.Reject Fetch.streamedBodyError
  ↔ isStreamInput (Fetch.init_body postStream).
Proof.
  eapply (redirect_rejects_stream_inputs Host.newURL
            (started "http://example.com/redirect/307" postStream)
            (redirectTo 307) [] []).
  - apply follows_redirectTo; reflexivity.
  - reflexivity.
  - reflexivity.
Defined.

Lemma fetch_redirected_witness :
  ∃ s response,
    Fetch._fetch Host.newURL (Fetch.InputString (lit "http://example.com/redirect/302"))
      (Some postA1) (noEntropy 0%nat) = Fetch.Ok s
    ∧ Fetch.fetch Host.newURL (inspectServer (redirectTo 302)) noEntropy
        (Fetch.InputString (lit "http://example.com/redirect/302")) (Some postA1)
      = Some (Fetch.Resolve response)
    ∧ (Fetch.redirected response = true
       ↔ ∃ incoming next,
           inspectServer (redirectTo 302) (Fetch._call s).1 = Fetch.Ok incoming
           ∧ Fetch.onResponse Host.newURL (Fetch._call s).2 incoming (noEntropy 1%nat)
             = Fetch.Recall next).
Proof.
  eexists.
  let outcome :=
    eval vm_compute in
      (Fetch.fetch Host.newURL (inspectServer (redirectTo 302)) noEntropy
         (Fetch.InputString (lit "http://example.com/redirect/302")) (Some postA1))
  in match outcome with Some (Fetch.Resolve ?response) => exists response end.
  split; [reflexivity|]. split; [vm_compute; reflexivity|].
  eapply (fetch_redirected Host.newURL (inspectServer (redirectTo 302)) noEntropy
            (Fetch.InputString (lit "http://example.com/redirect/302"))
            (Some postA1)); [reflexivity | vm_compute; reflexivity].
Defined.

Lemma fetch_at_most_21_requests_witness :
  ∃ s,
    Fetch._fetch Host.newURL (Fetch.InputString (lit "http://example.com/redirect/loop"))
      None (noEntropy 0%nat) = Fetch.Ok s
    ∧ is_Some (Fetch.exchange Host.newURL 21 loopServer noEntropy s)
    ∧ Fetch.fetch Host.newURL loopServer noEntropy
        (Fetch.InputString (lit "http://example.com/redirect/loop")) None
      = Fetch.exchange Host.newURL 21 loopServer noEntropy s.
Proof.
  eexists. split; [reflexivity|].
  apply (fetch_at_most_21_requests Host.newURL loopServer noEntropy
           (Fetch.InputString (lit "http://example.com/redirect/loop")) None).
  reflexivity.
Defined.


(** ** The type guards of body.ts

    [extractBody] recognises its input by probing it. A value is modelled
    by what the probes observe of it. *)

Module Probes.
Import Fetch.

(** [typeof object] *)
Inductive TypeOf := TypeString | TypeObject | TypeFunction | TypeOther.

(** [object[Symbol.toStringTag]]: a string, undefined, null, or any other
    value (a number, a boolean, an object), which has no method
    [startsWith] to call. *)
Inductive Tag :=
| TagString (tag : jsstring)
| TagUndefined
| TagNull
| TagOther.

#[global] Instance Tag_eq_dec : EqDecision Tag.
Proof. solve_decision. Defined.

Record Shape := {
  typeOf : TypeOf;
  (** the names [p] with [typeof object[p] === 'function'] *)
  methods : gset string;
  (** [typeof object.type === 'string'] *)
  typeIsString : bool;
  (** [object[Symbol.toStringTag]] *)
  toStringTag : Tag;
  instanceofUint8Array : bool;
  (** [isAnyArrayBuffer(object)], [ArrayBuffer.isView(object)] *)
  anyArrayBuffer : bool;
  arrayBufferView : bool;
  (** [Readable.isReadable(object)] *)
  readable : bool;
  (** [typeof object[Symbol.asyncIterator] === 'function'], and the like *)
  asyncIterator : bool;
  iterator : bool;
}.

Definition isObject (s : Shape) : bool :=
  match typeOf s with TypeObject => true | _ => false end.

Definition hasMethod (p : string) (s : Shape) : bool := bool_decide (p ∈ methods s).

Definition hasTag (tag : string) (s : Shape) : bool :=
  bool_decide (toStringTag s = TagString (lit tag)).

(** [s.startsWith(prefix)] *)
Fixpoint startsWith (prefix s : jsstring) : bool :=
  match prefix, s with
  | [], _ => true
  | p :: prefix, c :: s => (p =? c) && startsWith prefix s
  | _ :: _, [] => false
  end.

Definition isReadable (object : Shape) : bool := readable object.

Definition isIterable (object : Shape) : bool :=
  asyncIterator object || iterator object.

Definition isMultipartFormDataStream (object : Shape) : bool :=
  hasMethod "getBoundary" object
  && hasMethod "hasKnownLength" object
  && hasMethod "getLengthSync" object
  && readable object.

Definition isFormData (object : Shape) : bool :=
  isObject object
  && hasMethod "append" object
  && hasMethod "set" object
  && hasMethod "get" object
  && hasMethod "getAll" object
  && hasMethod "delete" object
  && hasMethod "keys" object
  && hasMethod "values" object
  && hasMethod "entries" object
  && hasMethod "constructor" object
  && hasTag "FormData" object.

Definition isURLSearchParameters (object : Shape) : bool :=
  isObject object
  && hasMethod "append" object
  && hasMethod "delete" object
  && hasMethod "get" object
  && hasMethod "getAll" object
  && hasMethod "has" object
  && hasMethod "set" object
  && hasMethod "sort" object
  && hasTag "URLSearchParams" object.

Definition isReadableStream (object : Shape) : bool :=
  isObject object
  && hasMethod "getReader" object
  && hasMethod "cancel" object
  && hasMethod "tee" object.

Definition undefinedTag : JsError :=
  TypeError (lit "Cannot read properties of undefined (reading 'startsWith')").
Definition nullTag : JsError :=
  TypeError (lit "Cannot read properties of null (reading 'startsWith')").
Definition tagWithoutStartsWith : JsError :=
  TypeError (lit "tag.startsWith is not a function").

(** [isBlob] calls [startsWith] on the tag, which throws when the tag is
    not a string. *)
Definition isBlob (object : Shape) : result bool :=
  if isObject object
     && hasMethod "arrayBuffer" object
     && typeIsString object
     && hasMethod "stream" object
     && hasMethod "constructor" object
  then
    match toStringTag object with
    | TagString tag =>
        Ok (startsWith (lit "Blob") tag || startsWith (lit "File") tag)
    | TagUndefined => Throw undefinedTag
    | TagNull => Throw nullTag
    | TagOther => Throw tagWithoutStartsWith
    end
  else Ok false.

(** The branch of [extractBody] a non-null input takes, named after the
    constructors of [Body.BodyInit]. *)
Inductive Branch :=
| AsString | AsURLSearchParams | AsBlob | AsUint8Array | AsArrayBuffer | AsView
| AsReadableStream | AsFormData | AsMultipartStream | AsReadable | AsIterable
| AsOther.

Definition classify (object : Shape) : result Branch :=
  match typeOf object with
  | TypeString => Ok AsString
  | _ =>
      if isURLSearchParameters object then Ok AsURLSearchParams
      else
        match isBlob object with
        | Throw e => Throw e
        | Ok true => Ok AsBlob
        | Ok false =>
            if instanceofUint8Array object then Ok AsUint8Array
            else if anyArrayBuffer object then Ok AsArrayBuffer
            else if arrayBufferView object then Ok AsView
            else if isReadableStream object then Ok AsReadableStream
            else if isFormData object then Ok AsFormData
            else if isMultipartFormDataStream object then Ok AsMultipartStream
            else if isReadable object then Ok AsReadable
            else if isIterable object then Ok AsIterable
            else Ok AsOther
        end
  end.

End Probes.

Section Guards.
Import Fetch Probes.

Lemma hasTag_inv (tag : string) (s : Shape) :
  hasTag tag s = true → toStringTag s = TagString (lit tag).
Proof. apply bool_decide_eq_true. Qed.

(** X28. No value passes two of the guards for URL parameters, blobs and
    form data, so the order in which [extractBody] tries these three does
    not matter; every multipart stream, though, also passes the guard for
    Node streams, which is tried after it. *)
Theorem guards_exclusive (object : Shape) :
  (isURLSearchParameters object = true →
   isBlob object = Ok false ∧ isFormData object = false)
  ∧ (isFormData object = true →
     isBlob object = Ok false ∧ isURLSearchParameters object = false)
  ∧ (isBlob object = Ok true →
     isURLSearchParameters object = false ∧ isFormData object = false)
  ∧ (isMultipartFormDataStream object = true → isReadable object = true).
Proof.
  assert (Hother : ∀ tag other : string,
            lit tag ≠ lit other →
            hasTag tag object = true → hasTag other object = false).
  { intros tag other Hne Htag. apply hasTag_inv in Htag.
    apply bool_decide_eq_false_2. congruence. }
  assert (Hblob : ∀ tag : string,
            startsWith (lit "Blob") (lit tag) || startsWith (lit "File") (lit tag)
            = false →
            hasTag tag object = true → isBlob object = Ok false).
  { intros tag Hprefix Htag. apply hasTag_inv in Htag. unfold isBlob.
    rewrite Htag, Hprefix. by destruct (_ && _). }
  split; [|split; [|split]].
  - intros H. unfold isURLSearchParameters in H.
    apply andb_true_iff in H as [_ Htag]. split.
    + by apply (Hblob "URLSearchParams").
    + unfold isFormData.
      rewrite (Hother "URLSearchParams" "FormData") by done.
      apply andb_false_r.
  - intros H. unfold isFormData in H.
    apply andb_true_iff in H as [_ Htag]. split.
    + by apply (Hblob "FormData").
    + unfold isURLSearchParameters.
      rewrite (Hother "FormData" "URLSearchParams") by done.
      apply andb_false_r.
  - intros H. unfold isBlob in H. destruct (_ && _); [|discriminate].
    destruct (toStringTag object) as [tag| | |] eqn:Htag; try discriminate.
    injection H as Hprefix.
    unfold isURLSearchParameters, isFormData, hasTag. rewrite Htag.
    split; (rewrite bool_decide_eq_false_2; [apply andb_false_r|]);
      intros [= ->]; discriminate Hprefix.
  - intros H. unfold isMultipartFormDataStream in H.
    by apply andb_true_iff in H as [_ Hreadable].
Qed.

(** X29. [extractBody] throws while classifying its input exactly when the
    input is an object with the methods and the string [type] of a blob
    whose [Symbol.toStringTag] is not a string (undefined, null, or a
    value without a method [startsWith]): such a value is not passed on to
    the later branches. Every other input is classified. *)
Theorem classify_throws (object : Shape) :
  (∃ e, classify object = Throw e)
  ↔ typeOf object = TypeObject
    ∧ hasMethod "arrayBuffer" object = true
    ∧ typeIsString object = true
    ∧ hasMethod "stream" object = true
    ∧ hasMethod "constructor" object = true
    ∧ ∀ tag, toStringTag object ≠ TagString tag.
Proof.
  assert (Hurl : (∀ tag, toStringTag object ≠ TagString tag) →
                 isURLSearchParameters object = false).
  { intros Htag. unfold isURLSearchParameters, hasTag.
    rewrite bool_decide_eq_false_2 by apply Htag. apply andb_false_r. }
  split.
  - intros [e He]. unfold classify in He.
    assert (Hblob : isBlob object = Throw e).
    { destruct (typeOf object); try discriminate;
        destruct (isURLSearchParameters object); try discriminate;
        destruct (isBlob object) as [[]|]; repeat case_match; congruence. }
    unfold isBlob in Hblob.
    destruct (isObject object) eqn:Hobject; [|discriminate].
    destruct (hasMethod "arrayBuffer" object); [|discriminate].
    destruct (typeIsString object); [|discriminate].
    destruct (hasMethod "stream" object); [|discriminate].
    destruct (hasMethod "constructor" object); [|discriminate].
    destruct (toStringTag object); [discriminate| | |];
      unfold isObject in Hobject; destruct (typeOf object); done.
  - intros (Htype & Hbuffer & Hstring & Hstream & Hconstructor & Htag).
    unfold classify. rewrite Htype, (Hurl Htag). unfold isBlob, isObject.
    rewrite Htype, Hbuffer, Hstring, Hstream, Hconstructor. cbn [andb].
    destruct (toStringTag object) as [tag| | |]; [by destruct (Htag tag) | ..];
      eexists; reflexivity.
Qed.

End Guards.

(** ** The mode [error] *)

Section ErrorMode.
Import Body Fetch.

Variable newURL : jsstring → option URL → option URL.

(** X30. Under the mode [error], every response with a redirect status
    makes the fetch reject with the redirect-mode error, whether it has a
    [Location] or not, whatever the target, the method and the number of
    redirects so far, as long as a [Location] that is present is a valid
    URL reference. *)
Theorem redirect_error_mode (s : State) (incoming : IncomingMessage)
    (random : list byte) :
  redirect s = error →
  isRedirectCode (statusCode incoming) = true →
  (∀ location,
     Headers.get (lit "Location") (headersOfRawHeaders (rawHeaders incoming))
     = Some location →
     is_Some (newURL location (Some (requestUrl s)))) →
  onResponse newURL s incoming random = Reject redirectModeError.
Proof.
  intros Hmode Hcode Hvalid. unfold onResponse. rewrite Hcode, Hmode.
  destruct (Headers.get _ _) as [location|]; [|reflexivity].
  destruct (Hvalid location eq_refl) as [u ->]. reflexivity.
Qed.

End ErrorMode.

Lemma redirect_error_mode_witness :
  Fetch.onResponse Host.newURL
    (started "http://example.com/redirect/301" (redirectInit "error"))
    (redirectTo 301) []
  = Fetch.Reject Fetch.redirectModeError.
Proof.
  apply redirect_error_mode; [reflexivity | reflexivity |].
  intros location [= <-]. eexists. reflexivity.
Defined.
